(** * Guestbook backend (src/main.py): shallow embedding and properties

    The file follows the layout of [main.py]:
    - [Py]   the Python builtins the handlers use ([str], [str.strip],
             [str()], [<] on sort keys, exceptions);
    - [Re]   the part of the [re] module the pattern [URL_REGEX] needs
             (a backtracking matcher, [search], [sub]);
    - [Api]  the handlers [test_database], [list_guestbook] and
             [add_guestbook] as programs over the calls they make to
             their collaborators, an interpreter that records them, and
             the response model [GuestbookEntry] of the two guestbook
             routes;
    - the properties of the specification, one theorem per claim. *)

From Stdlib Require Import List NArith ZArith Ascii String Lia Bool Permutation Sorted.
From stdpp Require Import base option list sorting gmap strings.

Set Default Proof Using "Type".
Local Open Scope N_scope.

(* ===================================================================== *)
(** ** Python builtins *)
(* ===================================================================== *)

Module Py.

(** A Python [str] is a sequence of Unicode code points. *)
Definition str : Type := list N.

(** Code points of an ASCII literal of the source. *)
Definition of_ascii (s : string) : str :=
  map N_of_ascii (list_ascii_of_string s).

(** [Py_UNICODE_ISSPACE]: the test behind both [str.strip()] (no argument)
    and the class [\s] of a [str] pattern. *)
Definition isspace (c : N) : bool :=
  ((0x09 <=? c) && (c <=? 0x0D)) ||
  ((0x1C <=? c) && (c <=? 0x20)) ||
  (c =? 0x85) || (c =? 0xA0) || (c =? 0x1680) ||
  ((0x2000 <=? c) && (c <=? 0x200A)) ||
  (c =? 0x2028) || (c =? 0x2029) || (c =? 0x202F) || (c =? 0x205F) ||
  (c =? 0x3000).

Fixpoint drop_while {A} (f : A -> bool) (l : list A) : list A :=
  match l with
  | [] => []
  | x :: r => if f x then drop_while f r else l
  end.

(** [s.lstrip()], [s.rstrip()], [s.strip()] *)
Definition lstrip (s : str) : str := drop_while isspace s.
Definition rstrip (s : str) : str := reverse (drop_while isspace (reverse s)).
Definition strip (s : str) : str := rstrip (lstrip s).

(** Truth value of a [str]: [not s] holds for the empty string only. *)
Definition truthy (s : str) : bool :=
  match s with [] => false | _ :: _ => true end.

(** A naive [datetime], counted in microseconds from [datetime.min]. *)
Definition datetime : Type := N.
Definition datetime_min : datetime := 0.

(** The objects found in a stored document. *)
Inductive value : Type :=
| VNone
| VStr (s : str)
| VDatetime (t : datetime)
| VObjectId (hex : str).      (* bson ObjectId, by its 24 hex digits *)

(** A [dict] with [str] keys; the keys of the source are ASCII literals. *)
Abbreviation dict := (gmap string value).

(** An exception object, by what the handlers ask of it:
    [isinstance(e, ImportError)] and [str(e)]. *)
Record exn : Type := { exn_ImportError : bool; exn_str : str }.

(** Result of an expression that may raise. *)
Definition result (A : Type) : Type := exn + A.

Definition bind {A B} (r : result A) (f : A -> result B) : result B :=
  match r with
  | inl e => inl e
  | inr a => f a
  end.

Notation "'let?' x ':=' r 'in' k" := (bind r (fun x => k))
  (at level 10, x name, r at level 100, k at level 200).

Definition type_name (v : value) : str :=
  match v with
  | VNone => of_ascii "NoneType"
  | VStr _ => of_ascii "str"
  | VDatetime _ => of_ascii "datetime.datetime"
  | VObjectId _ => of_ascii "ObjectId"
  end.

Definition TypeError_lt (x y : value) : exn :=
  {| exn_ImportError := false;
     exn_str := of_ascii "'<' not supported between instances of '" ++ type_name x
                ++ of_ascii "' and '" ++ type_name y ++ of_ascii "'" |}.

(** [a < b] on [str]: lexicographic on code points. *)
Fixpoint str_lt (a b : str) : bool :=
  match a, b with
  | _, [] => false
  | [], _ :: _ => true
  | x :: a', y :: b' => (x <? y) || ((x =? y) && str_lt a' b')
  end.

(** [x < y]: defined between two objects of the same ordered type, a
    [TypeError] otherwise ([None] is ordered with nothing, itself included). *)
Definition py_lt (x y : value) : result bool :=
  match x, y with
  | VStr a, VStr b => inr (str_lt a b)
  | VDatetime a, VDatetime b => inr (a <? b)
  | VObjectId a, VObjectId b => inr (str_lt a b)
  | _, _ => inl (TypeError_lt x y)
  end.

Section Sort.
Context {A : Type} (key : A -> value).

(** Put [x] in front of the first element whose key is not below its own. *)
Fixpoint insert_by (x : A) (l : list A) : result (list A) :=
  match l with
  | [] => inr [x]
  | y :: l' =>
      let? b := py_lt (key y) (key x) in
      if b then (let? r := insert_by x l' in inr (y :: r)) else inr (x :: l)
  end.

Fixpoint sort_by (l : list A) : result (list A) :=
  match l with
  | [] => inr []
  | x :: l' => let? s := sort_by l' in insert_by x s
  end.

(** [l.sort(key=key, reverse=reversed)].  The sort is stable, compares keys
    with [<] only, and with [reverse=True] keeps equal keys in their original
    order (it sorts the reversed list and reverses the outcome).  It is
    given here by a stable insertion sort: Timsort returns the same list,
    and raises as well when two keys cannot be compared (which pair it
    reports first is not modelled). *)
Definition list_sort (reversed : bool) (l : list A) : result (list A) :=
  if reversed then (let? s := sort_by (reverse l) in inr (reverse s)) else sort_by l.
End Sort.

Section Str.
(** [t.isoformat(sep)]: the calendar arithmetic is not modelled. *)
Variable isoformat : N -> datetime -> str.

(** [str(v)] *)
Definition py_str (v : value) : str :=
  match v with
  | VNone => of_ascii "None"
  | VStr s => s
  | VDatetime t => isoformat 0x20 t
  | VObjectId hex => hex
  end.
End Str.

End Py.

(* ===================================================================== *)
(** ** The regular expressions of [re] that [URL_REGEX] is made of *)
(* ===================================================================== *)

Module Re.
Import Py.

(** Code points a literal of the pattern accepts under
    [re.IGNORECASE] (with the default [re.UNICODE] of a [str] pattern):
    the subject character is lowered and compared with the lowered literal
    and with its entry in the table of case-folding equivalents of
    [sre_compile] (U+017F for [s], U+0131 for [i]); U+212A and U+0130 are
    the two other code points whose lowercase is an ASCII letter.  Only
    ASCII literals are covered, which is all the pattern has. *)
Definition is_upper (c : N) : bool := (0x41 <=? c) && (c <=? 0x5A).
Definition is_lower (c : N) : bool := (0x61 <=? c) && (c <=? 0x7A).
Definition ascii_lower (c : N) : N := if is_upper c then c + 32 else c.

Definition ignorecase_set (l : N) : list N :=
  let lo := ascii_lower l in
  if is_lower lo then
    [lo; lo - 32] ++
    (if lo =? 0x73 then [0x17F]
     else if lo =? 0x6B then [0x212A]
     else if lo =? 0x69 then [0x130; 0x131]
     else [])
  else [l].

Inductive atom : Type :=
| Lit (l : N)        (* a literal character, compiled with IGNORECASE *)
| Not_space.         (* the set [^\s] *)

Definition atom_ok (a : atom) (c : N) : bool :=
  match a with
  | Lit l => existsb (N.eqb c) (ignorecase_set l)
  | Not_space => negb (isspace c)
  end.

Inductive item : Type :=
| One (a : atom)     (* a   *)
| Opt (a : atom)     (* a?  greedy *)
| Plus (a : atom).   (* a+  greedy *)

Definition regex : Type := list item.

(** [a+] followed by the rest of the pattern [k]: take as many characters
    as possible, give them back one at a time while [k] fails. *)
Fixpoint match_plus (a : atom) (k : str -> option str) (s : str) : option str :=
  match s with
  | [] => None
  | c :: r =>
      if atom_ok a c then
        match match_plus a k r with
        | Some rest => Some rest
        | None => k r
        end
      else None
  end.

(** Match [p] at the start of [s]; the result is what follows the match. *)
Fixpoint match_here (p : regex) (s : str) : option str :=
  match p with
  | [] => Some s
  | One a :: p' =>
      match s with
      | c :: r => if atom_ok a c then match_here p' r else None
      | [] => None
      end
  | Opt a :: p' =>
      match (match s with
             | c :: r => if atom_ok a c then match_here p' r else None
             | [] => None
             end) with
      | Some rest => Some rest
      | None => match_here p' s
      end
  | Plus a :: p' => match_plus a (match_here p') s
  end.

(** [pattern.search]: the leftmost position where the pattern matches; the
    result is the text skipped before the match and the text after it. *)
Fixpoint search (p : regex) (s : str) : option (str * str) :=
  match match_here p s with
  | Some rest => Some ([], rest)
  | None =>
      match s with
      | [] => None
      | c :: r =>
          match search p r with
          | Some (g, rest) => Some (c :: g, rest)
          | None => None
          end
      end
  end.

(** [pattern.sub(repl, s)] for a replacement without escapes and a pattern
    that matches no empty string: copy up to the next match, put [repl],
    go on after the match.  Each round consumes at least one character, so
    [length s] rounds and one more to see that nothing is left suffice. *)
Fixpoint sub_loop (fuel : nat) (p : regex) (repl s : str) : str :=
  match fuel with
  | O => s
  | S fuel' =>
      match search p s with
      | None => s
      | Some (g, rest) => g ++ repl ++ sub_loop fuel' p repl rest
      end
  end.

Definition sub (p : regex) (repl s : str) : str :=
  sub_loop (S (length s)) p repl s.

End Re.

Import Py Re.

(* ===================================================================== *)
(** ** The handlers of [main.py] *)
(* ===================================================================== *)

Module Api.

(** The database handle [db] of the [database] module: [hasattr(db, "name")]
    and [db.name] are its optional attribute; [db.list_collection_names()]
    is a call to the collaborator. *)
Record db_handle : Type := { db_name : option value }.

(** What [get_documents] returns: a list whose elements are references to
    [dict] objects.  [objects] are the distinct objects, [refs] the list,
    each element an index into [objects]; two elements may be one object. *)
Record documents : Type := { objects : list dict; refs : list nat }.

Definition deref (objs : list dict) (r : nat) : dict := default ∅ (objs !! r).

(** A handler is a program over the calls it makes to its collaborators;
    each continuation takes what the call returned or raised. *)
Inductive prog (A : Type) : Type :=
| Ret (a : A)
| Import_db (k : result (option db_handle) -> prog A)
| List_collection_names (db : db_handle) (k : result (list str) -> prog A)
| Getenv (name : string) (k : option str -> prog A)
| Get_documents (collection_name : string) (filter : dict) (limit : Z)
    (k : result documents -> prog A)
| Create_document (collection_name : string) (data : dict)
    (k : result value -> prog A)
| Datetime_now (k : datetime -> prog A).

Arguments Ret {A} a.
Arguments Import_db {A} k.
Arguments List_collection_names {A} db k.
Arguments Getenv {A} name k.
Arguments Get_documents {A} collection_name filter limit k.
Arguments Create_document {A} collection_name data k.
Arguments Datetime_now {A} k.

(** The calls of one run, in order, with their answers. *)
Inductive event : Type :=
| EImport_db (answer : result (option db_handle))
| EList_collection_names (db : db_handle) (answer : result (list str))
| EGetenv (name : string) (answer : option str)
| EGet_documents (collection_name : string) (filter : dict) (limit : Z)
    (answer : result documents)
| ECreate_document (collection_name : string) (data : dict) (answer : result value)
| EDatetime_now (answer : datetime).

(** The collaborators.  The database module and the clock may answer
    according to the calls made so far; the environment of the process is
    fixed during a request. *)
Record world : Type := {
  import_db : list event -> result (option db_handle);
  list_collection_names : list event -> db_handle -> result (list str);
  environ : string -> option str;
  get_documents : list event -> string -> dict -> Z -> result documents;
  create_document : list event -> string -> dict -> result value;
  datetime_now : list event -> datetime;
}.

Fixpoint run {A} (w : world) (p : prog A) (hist : list event) : A * list event :=
  match p with
  | Ret a => (a, hist)
  | Import_db k =>
      let r := import_db w hist in run w (k r) (hist ++ [EImport_db r])
  | List_collection_names db k =>
      let r := list_collection_names w hist db in
      run w (k r) (hist ++ [EList_collection_names db r])
  | Getenv name k =>
      let r := environ w name in run w (k r) (hist ++ [EGetenv name r])
  | Get_documents c f l k =>
      let r := get_documents w hist c f l in
      run w (k r) (hist ++ [EGet_documents c f l r])
  | Create_document c d k =>
      let r := create_document w hist c d in
      run w (k r) (hist ++ [ECreate_document c d r])
  | Datetime_now k =>
      let r := datetime_now w hist in run w (k r) (hist ++ [EDatetime_now r])
  end.

(** [fastapi.HTTPException(status_code, detail)] *)
Record HTTPException : Type := { status_code : Z; detail : str }.

(** How a handler ends: it returns its response or raises. *)
Inductive outcome (A : Type) : Type :=
| Returned (a : A)
| Raised (e : HTTPException).

Arguments Returned {A} a.
Arguments Raised {A} e.

(** *** GET /test *)

(** The [response] dict of [test_database]: its six keys are fixed by the
    literal and only assigned afterwards. *)
Record test_response : Type := {
  backend : str;
  database : str;
  database_url : value;
  database_name : value;
  connection_status : str;
  collections : list str;
}.

Definition set_database (v : str) (r : test_response) : test_response :=
  {| backend := backend r; database := v; database_url := database_url r;
     database_name := database_name r; connection_status := connection_status r;
     collections := collections r |}.
Definition set_database_url (v : value) (r : test_response) : test_response :=
  {| backend := backend r; database := database r; database_url := v;
     database_name := database_name r; connection_status := connection_status r;
     collections := collections r |}.
Definition set_database_name (v : value) (r : test_response) : test_response :=
  {| backend := backend r; database := database r; database_url := database_url r;
     database_name := v; connection_status := connection_status r;
     collections := collections r |}.
Definition set_connection_status (v : str) (r : test_response) : test_response :=
  {| backend := backend r; database := database r; database_url := database_url r;
     database_name := database_name r; connection_status := v;
     collections := collections r |}.
Definition set_collections (v : list str) (r : test_response) : test_response :=
  {| backend := backend r; database := database r; database_url := database_url r;
     database_name := database_name r; connection_status := connection_status r;
     collections := v |}.

Definition OK_MARK : str := [0x2705].            (* U+2705 *)
Definition CROSS_MARK : str := [0x274C].         (* U+274C *)
Definition WARNING_SIGN : str := [0x26A0; 0xFE0F]. (* U+26A0 U+FE0F *)

Definition env_status (v : option str) : value :=
  match v with
  | Some s => if truthy s then VStr (OK_MARK ++ of_ascii " Set")
              else VStr (CROSS_MARK ++ of_ascii " Not Set")
  | None => VStr (CROSS_MARK ++ of_ascii " Not Set")
  end.

(** Lines 68-71: the two environment checks and the [return]. *)
Definition test_database_env (response : test_response) : prog (outcome test_response) :=
  Getenv "DATABASE_URL" (fun url =>
  let response := set_database_url (env_status url) response in
  Getenv "DATABASE_NAME" (fun name =>
  let response := set_database_name (env_status name) response in
  Ret (Returned response))).

Definition test_database : prog (outcome test_response) :=
  let response :=
    {| backend := OK_MARK ++ of_ascii " Running";
       database := CROSS_MARK ++ of_ascii " Not Available";
       database_url := VNone;
       database_name := VNone;
       connection_status := of_ascii "Not Connected";
       collections := [] |} in
  Import_db (fun imported =>
  match imported with
  | inr (Some db) =>
      let response := set_database (OK_MARK ++ of_ascii " Available") response in
      let response := set_database_url (VStr (OK_MARK ++ of_ascii " Configured")) response in
      let response :=
        set_database_name
          (match db_name db with
           | Some n => n
           | None => VStr (OK_MARK ++ of_ascii " Connected")
           end) response in
      let response := set_connection_status (of_ascii "Connected") response in
      List_collection_names db (fun listed =>
      match listed with
      | inr names =>
          let response := set_collections (take 10 names) response in
          let response :=
            set_database (OK_MARK ++ of_ascii " Connected & Working") response in
          test_database_env response
      | inl e =>
          test_database_env
            (set_database (WARNING_SIGN ++ of_ascii "  Connected but Error: "
                           ++ take 50 (exn_str e)) response)
      end)
  | inr None =>
      test_database_env
        (set_database (WARNING_SIGN ++ of_ascii "  Available but not initialized") response)
  | inl e =>
      if exn_ImportError e then
        test_database_env
          (set_database
             (CROSS_MARK ++ of_ascii " Database module not found (run enable-database first)")
             response)
      else
        test_database_env
          (set_database (CROSS_MARK ++ of_ascii " Error: " ++ take 50 (exn_str e)) response)
  end).

(** *** The guestbook *)

(** A run of literal characters of a pattern. *)
Definition lits (s : string) : regex := map (fun c => One (Lit c)) (of_ascii s).

(** [URL_REGEX = re.compile(r"https?://[^\s]+", re.IGNORECASE)] *)
Definition URL_REGEX : regex :=
  lits "http" ++ [Opt (Lit 0x73)] ++ lits "://" ++ [Plus Not_space].

(** [class GuestbookCreate(BaseModel)]: the two fields and their
    [max_length] bounds, which the framework checks on the request body
    before it calls the handler. *)
Record GuestbookCreate : Type := { name : str; message : str }.

Definition GuestbookCreate_valid (payload : GuestbookCreate) : Prop :=
  (length (name payload) <= 80)%nat /\ (length (message payload) <= 500)%nat.

(** The replacement text of [URL_REGEX.sub]. *)
Definition link_removed : str := of_ascii "[link removed]".

Section Handlers.
Variable isoformat : N -> datetime -> str.

(** [d.get("created_at", datetime.min)] *)
Definition created_at_key (d : dict) : value :=
  default (VDatetime datetime_min) (d !! "created_at").

(** One round of [for d in docs: if "_id" in d: d["_id"] = str(d["_id"])];
    [r] is the element, a reference to the object it updates in place. *)
Definition convert_id (objs : list dict) (r : nat) : list dict :=
  match objs !! r with
  | Some d =>
      match d !! "_id" with
      | Some v => <[r := <["_id" := VStr (py_str isoformat v)]> d]> objs
      | None => objs
      end
  | None => objs
  end.

Definition list_guestbook (limit : Z) : prog (outcome (list dict)) :=
  Get_documents "guestbook" ∅ limit (fun got =>
  match got with
  | inl e => Ret (Raised {| status_code := 500; detail := exn_str e |})
  | inr docs =>
      match list_sort (fun r => created_at_key (deref (objects docs) r)) true (refs docs) with
      | inl e => Ret (Raised {| status_code := 500; detail := exn_str e |})
      | inr sorted =>
          let objs := foldl convert_id (objects docs) sorted in
          Ret (Returned (map (deref objs) sorted))
      end
  end).

Definition add_guestbook (payload : GuestbookCreate) : prog (outcome dict) :=
  let name := strip (name payload) in
  let message := strip (message payload) in
  if negb (truthy name) || negb (truthy message) then
    Ret (Raised {| status_code := 400;
                   detail := of_ascii "Name and message are required" |})
  else
    let message_sanitized := sub URL_REGEX link_removed message in
    let data : dict :=
      <["name" := VStr name]> (<["message" := VStr message_sanitized]> ∅) in
    Create_document "guestbook" data (fun created =>
    match created with
    | inl e => Ret (Raised {| status_code := 500; detail := exn_str e |})
    | inr inserted_id =>
        Datetime_now (fun t1 =>
        let created_at := isoformat 0x54 t1 in
        Datetime_now (fun t2 =>
        Ret (Returned
               (<["_id" := inserted_id]>
                (<["name" := VStr name]>
                 (<["message" := VStr message_sanitized]>
                  (<["created_at" := VDatetime t2]> ∅)))))))
    end).
End Handlers.

(** *** Liveness: [read_root] and [hello] return a fixed object. *)
Definition read_root : prog (outcome dict) :=
  Ret (Returned (<["message" := VStr (of_ascii "Ayan Portfolio Backend Running")]> ∅)).

Definition hello : prog (outcome dict) :=
  Ret (Returned (<["message" := VStr (of_ascii "Hello from the backend API!")]> ∅)).

(** *** The response model *)

(** The types the annotations of [GuestbookEntry] name. *)
Inductive annotation : Type := Str | Datetime.

(** [class GuestbookEntry(BaseModel)]: the annotated names, in order. *)
Definition GuestbookEntry : list (string * annotation) :=
  [("_id", Str); ("name", Str); ("message", Str); ("created_at", Datetime)]%string.

(** The fields of a [BaseModel] are its annotated names that do not begin
    with an underscore; a name that does is a private attribute, which
    validation does not read and serialization does not write. *)
Definition model_fields (model : list (string * annotation)) : list (string * annotation) :=
  List.filter (fun f => negb (String.prefix "_" (fst f))) model.

(** One required field: the value under its name, of its type.  The
    conversions pydantic makes from a value of another type are not
    modelled: such a value is answered as invalid. *)
Definition validate_field (d : dict) (f : string * annotation) : option (string * value) :=
  match d !! fst f, snd f with
  | Some (VStr s), Str => Some (fst f, VStr s)
  | Some (VDatetime t), Datetime => Some (fst f, VDatetime t)
  | _, _ => None
  end.

(** Validation of a returned dict against the model, then serialization:
    the fields and nothing else. *)
Definition model_validate (model : list (string * annotation)) (d : dict) : option dict :=
  match mapM (validate_field d) (model_fields model) with
  | Some fields => Some (list_to_map fields)
  | None => None
  end.

(** What the framework answers when the value a handler returns does not
    validate against its [response_model]. *)
Definition ResponseValidationError : HTTPException :=
  {| status_code := 500; detail := of_ascii "Internal Server Error" |}.

(** [response_model=...] on a route: the returned value goes through the
    model, an [HTTPException] goes to the client as it is. *)
Definition response_model {A B : Type} (validate : A -> option B) (o : outcome A) : outcome B :=
  match o with
  | Returned a =>
      match validate a with
      | Some b => Returned b
      | None => Raised ResponseValidationError
      end
  | Raised e => Raised e
  end.

(** [@app.get("/guestbook", response_model=List[GuestbookEntry])] *)
Definition list_guestbook_response (o : outcome (list dict)) : outcome (list dict) :=
  response_model (mapM (model_validate GuestbookEntry)) o.

(** [@app.post("/guestbook", response_model=GuestbookEntry)] *)
Definition add_guestbook_response (o : outcome dict) : outcome dict :=
  response_model (model_validate GuestbookEntry) o.

End Api.

Import Api.

(* ===================================================================== *)
(** ** Vocabulary of the properties *)
(* ===================================================================== *)

(** The notions the properties are stated with, and a few collaborators
    and inputs to try them on. *)

(** [bool(os.getenv(k))] *)
Definition env_set (w : world) (k : string) : bool :=
  match environ w k with
  | Some s => truthy s
  | None => false
  end.

(** A process in which DATABASE_URL is set to [url] and DATABASE_NAME is
    not set, with a database module whose [db] is [None]. *)
Definition world_with_url (url : str) : world :=
  {| import_db := fun _ => inr None;
     list_collection_names := fun _ _ => inr [];
     environ := fun k => if String.eqb k "DATABASE_URL" then Some url else None;
     get_documents := fun _ _ _ _ => inr {| objects := []; refs := [] |};
     create_document := fun _ _ _ => inr VNone;
     datetime_now := fun _ => 0 |}.

(** The document [add_guestbook] hands to [create_document]. *)
Definition guestbook_data (payload : GuestbookCreate) : dict :=
  <["name" := VStr (strip (name payload))]>
    (<["message" := VStr (sub URL_REGEX link_removed (strip (message payload)))]> ∅).

(** Collaborators that work: [create_document] returns an identifier, the
    clock advances with every call. *)
Definition sample_world : world :=
  {| import_db := fun _ => inr None;
     list_collection_names := fun _ _ => inr [];
     environ := fun _ => None;
     get_documents := fun _ _ _ _ => inr {| objects := []; refs := [] |};
     create_document := fun _ _ _ => inr (VStr (of_ascii "65a1"));
     datetime_now := fun h => N.of_nat (length h) |}.

(** Collaborators that raise [e] on every call. *)
Definition failing_world (e : exn) : world :=
  {| import_db := fun _ => inl e;
     list_collection_names := fun _ _ => inl e;
     environ := fun _ => None;
     get_documents := fun _ _ _ _ => inl e;
     create_document := fun _ _ _ => inl e;
     datetime_now := fun _ => 0 |}.

Definition connection_refused : exn :=
  {| exn_ImportError := false; exn_str := of_ascii "connection refused" |}.

(** The timestamp of a document: its [created_at] field, or
    [datetime.min] when it has none. *)
Definition timestamp (d : dict) : datetime :=
  match d !! "created_at" with
  | Some (VDatetime t) => t
  | _ => datetime_min
  end.

(** A sort key as a number: a datetime by its ticks. *)
Definition ticks (v : value) : datetime :=
  match v with
  | VDatetime t => t
  | _ => datetime_min
  end.

(** The order of the keys of a sort, and the keys that are datetimes. *)
Definition ascending {A : Type} (key : A -> value) (a b : A) : Prop :=
  ticks (key a) <= ticks (key b).

Definition datetime_key {A : Type} (key : A -> value) (a : A) : Prop :=
  exists t, key a = VDatetime t.

(** The [created_at] of the document, when present, is a [datetime]. *)
Definition timestamped (d : dict) : Prop :=
  match d !! "created_at" with
  | None | Some (VDatetime _) => True
  | Some _ => False
  end.

(** What the loop of [list_guestbook] makes of one document. *)
Definition text_id (isoformat : N -> datetime -> str) (d : dict) : dict :=
  match d !! "_id" with
  | Some v => <["_id" := VStr (py_str isoformat v)]> d
  | None => d
  end.

(** The shape of an entry of the response and of a stored document. *)
Definition entry_shape (e : dict) : Prop :=
  exists i n m t,
    e !! "_id" = Some (VStr i) /\ e !! "name" = Some (VStr n) /\
    e !! "message" = Some (VStr m) /\ e !! "created_at" = Some (VDatetime t).

Definition stored_shape (d : dict) : Prop :=
  is_Some (d !! "_id") /\
  exists n m t,
    d !! "name" = Some (VStr n) /\ d !! "message" = Some (VStr m) /\
    d !! "created_at" = Some (VDatetime t).

(** How an entry [e] of the response stands to the document [d] it comes
    from: the identifier, when [d] has one, is its text; the other fields
    are those of [d]. *)
Definition entry_of (isoformat : N -> datetime -> str) (d e : dict) : Prop :=
  (forall v, d !! "_id" = Some v -> e !! "_id" = Some (VStr (py_str isoformat v))) /\
  (forall k, k <> "_id"%string -> e !! k = d !! k) /\
  (stored_shape d -> entry_shape e).

(** A list of three elements, the last two being one object; the first
    document has no [created_at]. *)
Definition two_documents : documents :=
  {| objects :=
       [ <["_id" := VObjectId (of_ascii "65a1")]> (<["name" := VStr (of_ascii "Ann")]> ∅);
         <["_id" := VObjectId (of_ascii "65a2")]>
           (<["name" := VStr (of_ascii "Bob")]>
            (<["message" := VStr (of_ascii "hi")]>
             (<["created_at" := VDatetime 7]> ∅))) ];
     refs := [0; 1; 1]%nat |}.

(** Collaborators whose [get_documents] returns [docs]. *)
Definition world_with_documents (docs : documents) : world :=
  {| import_db := fun _ => inr None;
     list_collection_names := fun _ _ => inr [];
     environ := fun _ => None;
     get_documents := fun _ _ _ _ => inr docs;
     create_document := fun _ _ _ => inr VNone;
     datetime_now := fun _ => 0 |}.

(** The words of the specification: a URL is [http://] or [https://], in
    any case, followed by one or more characters that are not whitespace. *)
Definition nonspace (c : N) : Prop := isspace c = false.

(** Letters are compared after Unicode simple case folding; of it, the code
    points that fold to an ASCII letter: the letters A-Z, U+017F (long s)
    and U+212A (Kelvin sign). *)
Definition casefold (c : N) : N :=
  if (0x41 <=? c) && (c <=? 0x5A) then c + 32
  else if c =? 0x17F then 0x73
  else if c =? 0x212A then 0x6B
  else c.

Definition same_letter (l c : N) : Prop := casefold c = casefold l.

Definition is_scheme (p : str) : Prop :=
  Forall2 same_letter (of_ascii "http://") p \/
  Forall2 same_letter (of_ascii "https://") p.

Definition is_url (u : str) : Prop :=
  exists sch body,
    is_scheme sch /\ body <> [] /\ Forall nonspace body /\ u = sch ++ body.

(** The text after a match: the end of the string or a whitespace. *)
Definition at_boundary (rest : str) : Prop :=
  match rest with
  | [] => True
  | c :: _ => isspace c = true
  end.

(** A URL begins here: a scheme and one more character that is not
    whitespace. *)
Definition starts_url (s : str) : Prop :=
  exists sch c t, is_scheme sch /\ nonspace c /\ s = sch ++ c :: t.

(** [u] occurs in [t]. *)
Definition contains_url (t : str) : Prop :=
  exists pre u post, t = pre ++ u ++ post /\ is_url u.

(** The test a literal of the compiled pattern makes on a character. *)
Definition lit_ok (l c : N) : Prop := atom_ok (Lit l) c = true.

(** The characters that occur in a scheme, in any case. *)
Definition scheme_char (c : N) : bool :=
  existsb (N.eqb c) [0x68; 0x48; 0x74; 0x54; 0x70; 0x50; 0x73; 0x53; 0x17F; 0x3A; 0x2F].

(** The pattern after [http] and the optional [s]. *)
Definition URL_TAIL : regex := lits "://" ++ [Plus Not_space].

(** A text cut into pieces, some of them marked as URLs. *)
Inductive chunk : Type :=
| Text (g : str)
| Url (u : str).

(** The text the pieces come from, and the text with each marked piece
    replaced by [repl]. *)
Definition source (cs : list chunk) : str :=
  concat (map (fun c => match c with Text g => g | Url u => u end) cs).

Definition render (repl : str) (cs : list chunk) : str :=
  concat (map (fun c => match c with Text g => g | Url _ => repl end) cs).

(** [u], found between [pre] and [post], is a URL and no longer part of the
    text around it is one. *)
Definition maximal_url (pre u post : str) : Prop :=
  is_url u /\
  forall pre' a b post',
    pre = pre' ++ a -> post = b ++ post' -> is_url (a ++ u ++ b) -> a = [] /\ b = [].

(** A string that neither begins nor ends with whitespace. *)
Definition trimmed (s : str) : Prop :=
  (forall c r, s = c :: r -> isspace c = false) /\
  (forall r c, s = r ++ [c] -> isspace c = false).

(** Calls that write to the store, and calls to the store at all. *)
Definition is_create (ev : event) : bool :=
  match ev with
  | ECreate_document _ _ _ => true
  | _ => false
  end.

Definition is_storage (ev : event) : bool :=
  match ev with
  | ECreate_document _ _ _ | EGet_documents _ _ _ _ => true
  | _ => false
  end.



(** Two documents, the second with a null [created_at]. *)
Definition null_documents : documents :=
  {| objects := [ <["created_at" := VDatetime 3]> ∅; <["created_at" := VNone]> ∅ ];
     refs := [0; 1]%nat |}.

(** One document with a null [created_at]. *)
Definition one_null_document : documents :=
  {| objects := [ <["created_at" := VNone]> ∅ ]; refs := [0%nat] |}.

(** Two complete documents as the store keeps them. *)
Definition stored_documents : documents :=
  {| objects :=
       [ <["_id" := VObjectId (of_ascii "65a1")]>
           (<["name" := VStr (of_ascii "Ann")]>
            (<["message" := VStr (of_ascii "hello")]>
             (<["created_at" := VDatetime 3]> ∅)));
         <["_id" := VObjectId (of_ascii "65a2")]>
           (<["name" := VStr (of_ascii "Bob")]>
            (<["message" := VStr (of_ascii "hi")]>
             (<["created_at" := VDatetime 7]> ∅))) ];
     refs := [0; 1]%nat |}.

(** [t] is [s] without its leading and trailing whitespace. *)
Definition trimming (s t : str) : Prop :=
  exists pre post,
    s = pre ++ t ++ post /\ Forall (fun c => isspace c = true) pre /\
    Forall (fun c => isspace c = true) post /\ trimmed t.

(** [out] is [s] with every URL replaced by the placeholder: [s] cuts into
    plain text and URLs, each URL piece a maximal URL of [s] where it
    stands and every maximal URL of [s] a piece, and [out] is the same
    sequence with the placeholder in the place of each URL. *)
Definition sanitized (s out : str) : Prop :=
  exists cs,
    source cs = s /\ render (of_ascii "[link removed]") cs = out /\
    (forall cs1 u cs2, cs = cs1 ++ Url u :: cs2 ->
       maximal_url (source cs1) u (source cs2)) /\
    (forall pre u post, s = pre ++ u ++ post -> maximal_url pre u post ->
       exists cs1 cs2, cs = cs1 ++ Url u :: cs2 /\ source cs1 = pre /\ source cs2 = post).

(** A message of 494 characters made of 55 short URLs. *)
Definition message_of_urls : str :=
  concat (replicate 54 (of_ascii "http://a ")) ++ of_ascii "http://a".

(* ===================================================================== *)
(** ** The response model *)
(* ===================================================================== *)

(** [_id] is not a field of [GuestbookEntry]. *)
Lemma GuestbookEntry_fields :
  model_fields GuestbookEntry =
  [("name", Str); ("message", Str); ("created_at", Datetime)]%string.
Proof. reflexivity. Qed.

(** A dict with the three fields validates, to these fields and nothing
    else. *)
Lemma model_validate_fields (d : dict) (n m : str) (t : datetime) :
  d !! "name" = Some (VStr n) -> d !! "message" = Some (VStr m) ->
  d !! "created_at" = Some (VDatetime t) ->
  model_validate GuestbookEntry d =
  Some (<["name" := VStr n]> (<["message" := VStr m]> (<["created_at" := VDatetime t]> ∅))).
Proof.
  intros Hn Hm Ht. unfold model_validate. rewrite GuestbookEntry_fields.
  cbn. unfold validate_field. cbn. rewrite Hn. cbn. rewrite Hm. cbn. rewrite Ht. done.
Qed.

(** What validates has the three fields, and what comes out has them as
    they were and has no [_id]. *)
Lemma model_validate_Some (d e : dict) :
  model_validate GuestbookEntry d = Some e ->
  e !! "_id" = None /\ e !! "name" = d !! "name" /\
  e !! "message" = d !! "message" /\ e !! "created_at" = d !! "created_at".
Proof.
  unfold model_validate. rewrite GuestbookEntry_fields. cbn. unfold validate_field. cbn.
  destruct (d !! "name") as [[] |]; try done. cbn.
  destruct (d !! "message") as [[] |]; try done. cbn.
  destruct (d !! "created_at") as [[] |]; try done. cbn.
  intros [= <-]. done.
Qed.

(** What validates has a name and a message that are strings and a
    creation time that is a datetime, and what comes out is these three
    fields. *)
Lemma model_validate_inv (d e : dict) :
  model_validate GuestbookEntry d = Some e ->
  exists n m t,
    d !! "name" = Some (VStr n) /\ d !! "message" = Some (VStr m) /\
    d !! "created_at" = Some (VDatetime t) /\
    e = <["name" := VStr n]> (<["message" := VStr m]> (<["created_at" := VDatetime t]> ∅)).
Proof.
  unfold model_validate. rewrite GuestbookEntry_fields. cbn. unfold validate_field. cbn.
  destruct (d !! "name") as [[] |]; try done. cbn.
  destruct (d !! "message") as [[] |]; try done. cbn.
  destruct (d !! "created_at") as [[] |]; try done. cbn.
  intros [= <-]. by eexists _, _, _.
Qed.



(* ===================================================================== *)
(** ** GET /test *)
(* ===================================================================== *)

Lemma run_test_database_env w response hist :
  run w (test_database_env response) hist =
  (Returned (set_database_name (env_status (environ w "DATABASE_NAME"))
               (set_database_url (env_status (environ w "DATABASE_URL")) response)),
   hist ++ [EGetenv "DATABASE_URL" (environ w "DATABASE_URL")]
        ++ [EGetenv "DATABASE_NAME" (environ w "DATABASE_NAME")]).
Proof. simpl. by rewrite <- app_assoc. Qed.

(** The response of [test_database], case by case on what the probes
    answer. *)
Lemma run_test_database w hist :
  exists response trace,
    run w test_database hist = (Returned response, trace) /\
    database_url response = env_status (environ w "DATABASE_URL") /\
    database_name response = env_status (environ w "DATABASE_NAME") /\
    match import_db w hist with
    | inr (Some db) =>
        connection_status response = of_ascii "Connected" /\
        match list_collection_names w (hist ++ [EImport_db (inr (Some db))]) db with
        | inr names =>
            collections response = take 10 names /\
            database response = OK_MARK ++ of_ascii " Connected & Working"
        | inl e =>
            collections response = [] /\
            database response =
              WARNING_SIGN ++ of_ascii "  Connected but Error: " ++ take 50 (exn_str e)
        end
    | inr None =>
        connection_status response = of_ascii "Not Connected" /\
        collections response = [] /\
        database response = WARNING_SIGN ++ of_ascii "  Available but not initialized"
    | inl e =>
        connection_status response = of_ascii "Not Connected" /\
        collections response = [] /\
        database response =
          if exn_ImportError e
          then CROSS_MARK ++ of_ascii " Database module not found (run enable-database first)"
          else CROSS_MARK ++ of_ascii " Error: " ++ take 50 (exn_str e)
    end.
Proof.
  unfold test_database. cbn [run].
  destruct (import_db w hist) as [e | [db |]].
  - destruct (exn_ImportError e) eqn:He;
      rewrite run_test_database_env; eexists _, _; cbn; rewrite ?He; done.
  - cbn [run].
    destruct (list_collection_names w _ db) as [e | names];
      rewrite run_test_database_env; eexists _, _; cbn; done.
  - rewrite run_test_database_env; eexists _, _; cbn; done.
Qed.

(** C5. [test_database] always returns its response object and never
    raises, whatever the import of the database module, the handle and the
    enumeration of collections do; a failed probe is reported in the
    [database] string; [connection_status] is "Connected" exactly when the
    import gave a handle that is not [None]; [collections] holds at most
    ten names. *)
Theorem test_database_never_raises (w : world) (hist : list event) :
  exists response trace,
    run w test_database hist = (Returned response, trace) /\
    (connection_status response = of_ascii "Connected" <->
     exists db, import_db w hist = inr (Some db)) /\
    (length (collections response) <= 10)%nat /\
    (forall e, import_db w hist = inl e ->
       database response =
         if exn_ImportError e
         then CROSS_MARK ++ of_ascii " Database module not found (run enable-database first)"
         else CROSS_MARK ++ of_ascii " Error: " ++ take 50 (exn_str e)) /\
    (import_db w hist = inr None ->
       database response = WARNING_SIGN ++ of_ascii "  Available but not initialized") /\
    (forall db e,
       import_db w hist = inr (Some db) ->
       list_collection_names w (hist ++ [EImport_db (inr (Some db))]) db = inl e ->
       database response =
         WARNING_SIGN ++ of_ascii "  Connected but Error: " ++ take 50 (exn_str e)).
Proof.
  destruct (run_test_database w hist) as (response & trace & Hrun & _ & _ & H).
  exists response, trace. split; [exact Hrun |].
  destruct (import_db w hist) as [e | [db |]] eqn:Himp.
  - destruct H as (Hc & Hl & Hd). rewrite Hc, Hl.
    repeat split; try (cbn; lia); try discriminate.
    + intros [db Hdb]. discriminate.
    + intros e' [= <-]. exact Hd.
  - destruct H as (Hc & H). rewrite Hc.
    repeat split; eauto; try discriminate.
    + destruct (list_collection_names w _ db) as [e | names]; destruct H as (Hl & _);
        rewrite Hl; [cbn; lia |]. rewrite length_take. lia.
    + intros db' e [= <-] He. rewrite He in H. apply H.
  - destruct H as (Hc & Hl & Hd). rewrite Hc, Hl.
    repeat split; try (cbn; lia); try discriminate; try done.
    intros [db Hdb]. discriminate.
Qed.

(** C10, as stated, fails: two runs in which DATABASE_URL is present (and
    DATABASE_NAME absent) report different [database_url] fields when one
    of the values is the empty string. *)
Lemma env_presence_counterexample :
  let w1 := world_with_url [] in
  let w2 := world_with_url (of_ascii "mongodb://localhost") in
  (is_Some (environ w1 "DATABASE_URL") <-> is_Some (environ w2 "DATABASE_URL")) /\
  (is_Some (environ w1 "DATABASE_NAME") <-> is_Some (environ w2 "DATABASE_NAME")) /\
  (run w1 test_database []).1 =
    Returned {| backend := OK_MARK ++ of_ascii " Running";
                database := WARNING_SIGN ++ of_ascii "  Available but not initialized";
                database_url := VStr (CROSS_MARK ++ of_ascii " Not Set");
                database_name := VStr (CROSS_MARK ++ of_ascii " Not Set");
                connection_status := of_ascii "Not Connected";
                collections := [] |} /\
  (run w2 test_database []).1 =
    Returned {| backend := OK_MARK ++ of_ascii " Running";
                database := WARNING_SIGN ++ of_ascii "  Available but not initialized";
                database_url := VStr (OK_MARK ++ of_ascii " Set");
                database_name := VStr (CROSS_MARK ++ of_ascii " Not Set");
                connection_status := of_ascii "Not Connected";
                collections := [] |} /\
  ~ (forall r1 r2,
       (run w1 test_database []).1 = Returned r1 ->
       (run w2 test_database []).1 = Returned r2 ->
       database_url r1 = database_url r2).
Proof.
  cbv zeta. split; [| split; [| split; [| split]]].
  - split; intros _; eexists; reflexivity.
  - split; intros [x Hx]; discriminate.
  - vm_compute. reflexivity.
  - vm_compute. reflexivity.
  - intros H. specialize (H _ _ eq_refl eq_refl). vm_compute in H. discriminate.
Qed.

(** C10, amended. The [database_url] and [database_name] fields of the
    response are the outcome of the two environment checks and of nothing
    else: two runs in which each of DATABASE_URL and DATABASE_NAME is set
    to a non-empty value in both or in neither return the same two fields,
    whatever the database module, its handle and its connection do. *)
Theorem test_database_env_fields (w1 w2 : world) (h1 h2 : list event) :
  env_set w1 "DATABASE_URL" = env_set w2 "DATABASE_URL" ->
  env_set w1 "DATABASE_NAME" = env_set w2 "DATABASE_NAME" ->
  exists r1 r2,
    (run w1 test_database h1).1 = Returned r1 /\
    (run w2 test_database h2).1 = Returned r2 /\
    database_url r1 = database_url r2 /\
    database_name r1 = database_name r2.
Proof.
  intros Hurl Hname.
  destruct (run_test_database w1 h1) as (r1 & t1 & Hr1 & Hu1 & Hn1 & _).
  destruct (run_test_database w2 h2) as (r2 & t2 & Hr2 & Hu2 & Hn2 & _).
  exists r1, r2. rewrite Hr1, Hr2, Hu1, Hu2, Hn1, Hn2.
  repeat split.
  - unfold env_set in Hurl. unfold env_status.
    destruct (environ w1 "DATABASE_URL") as [[|??]|], (environ w2 "DATABASE_URL") as [[|??]|];
      cbn in *; congruence.
  - unfold env_set in Hname. unfold env_status.
    destruct (environ w1 "DATABASE_NAME") as [[|??]|], (environ w2 "DATABASE_NAME") as [[|??]|];
      cbn in *; congruence.
Qed.

Lemma test_database_env_fields_witness :
  exists r1 r2,
    (run (world_with_url (of_ascii "a")) test_database []).1 = Returned r1 /\
    (run (world_with_url (of_ascii "mongodb://localhost")) test_database []).1 = Returned r2 /\
    database_url r1 = database_url r2 /\
    database_name r1 = database_name r2.
Proof.
  apply (test_database_env_fields (world_with_url (of_ascii "a"))
           (world_with_url (of_ascii "mongodb://localhost")) [] []);
    reflexivity.
Defined.

(* ===================================================================== *)
(** ** POST /guestbook: validation, persistence, storage failures *)
(* ===================================================================== *)

Lemma drop_while_nil {A} (f : A -> bool) (l : list A) :
  drop_while f l = [] <-> Forall (fun x => f x = true) l.
Proof.
  induction l as [| x l IH]; cbn.
  - split; [constructor | reflexivity].
  - destruct (f x) eqn:Hx.
    + rewrite IH. split; [by constructor | by inversion 1].
    + split; [discriminate | inversion 1; congruence].
Qed.

Lemma Forall_drop_while {A} (f : A -> bool) (l : list A) :
  Forall (fun x => f x = true) (drop_while f l) <-> Forall (fun x => f x = true) l.
Proof.
  induction l as [| x l IH]; cbn; [done |].
  destruct (f x) eqn:Hx; [| done].
  rewrite IH. split; [by constructor | by inversion 1].
Qed.

(** Trimming leaves nothing exactly when the string is empty or made of
    whitespace only. *)
Lemma strip_nil (s : str) :
  strip s = [] <-> Forall (fun c => isspace c = true) s.
Proof.
  unfold strip, rstrip, lstrip.
  rewrite <- (Forall_drop_while isspace s).
  rewrite <- (Forall_reverse _ (drop_while isspace s)).
  rewrite <- drop_while_nil.
  split; intros H.
  - apply (f_equal reverse) in H. by rewrite reverse_involutive in H.
  - by rewrite H.
Qed.

Lemma truthy_false (s : str) : truthy s = false <-> s = [].
Proof. by destruct s. Qed.

Lemma add_guestbook_blank isoformat payload :
  strip (name payload) = [] \/ strip (message payload) = [] ->
  add_guestbook isoformat payload =
  Ret (Raised {| status_code := 400; detail := of_ascii "Name and message are required" |}).
Proof.
  intros H. unfold add_guestbook.
  destruct H as [-> | ->]; [done |].
  by rewrite orb_true_r.
Qed.

Lemma add_guestbook_filled isoformat w payload hist :
  strip (name payload) <> [] -> strip (message payload) <> [] ->
  run w (add_guestbook isoformat payload) hist =
  let data := guestbook_data payload in
  let created := create_document w hist "guestbook" data in
  let h1 := hist ++ [ECreate_document "guestbook" data created] in
  match created with
  | inl e => (Raised {| status_code := 500; detail := exn_str e |}, h1)
  | inr inserted_id =>
      let t1 := datetime_now w h1 in
      let h2 := h1 ++ [EDatetime_now t1] in
      let t2 := datetime_now w h2 in
      (Returned (<["_id" := inserted_id]>
                 (<["name" := VStr (strip (name payload))]>
                  (<["message" := VStr (sub URL_REGEX link_removed (strip (message payload)))]>
                   (<["created_at" := VDatetime t2]> ∅)))),
       h2 ++ [EDatetime_now t2])
  end.
Proof.
  intros Hn Hm. unfold add_guestbook.
  destruct (strip (name payload)) as [| c n] eqn:En; [done |].
  destruct (strip (message payload)) as [| c' m] eqn:Em; [done |].
  cbn [truthy negb orb run]. unfold guestbook_data. rewrite En, Em.
  by destruct (create_document w hist _ _).
Qed.

(** C2. When the name or the message is empty once trimmed (that is, empty
    or made of whitespace only), [add_guestbook] raises an HTTP error of
    status 400 and makes no call at all to its collaborators: in
    particular [create_document] is not invoked and nothing is stored. *)
Theorem add_guestbook_rejects_blank
    (isoformat : N -> datetime -> str) (w : world) (hist : list event)
    (payload : GuestbookCreate) :
  strip (name payload) = [] \/ strip (message payload) = [] ->
  exists e,
    run w (add_guestbook isoformat payload) hist = (Raised e, hist) /\
    status_code e = 400%Z.
Proof.
  intros H. rewrite (add_guestbook_blank _ _ H). cbn. eauto.
Qed.

Lemma add_guestbook_rejects_blank_witness :
  exists e,
    run sample_world
      (add_guestbook (fun _ _ => [])
         {| name := of_ascii "   "; message := of_ascii "hello" |}) []
    = (Raised e, []) /\
    status_code e = 400%Z.
Proof.
  apply (add_guestbook_rejects_blank (fun _ _ => []) sample_world []
           {| name := of_ascii "   "; message := of_ascii "hello" |}).
  left. vm_compute. reflexivity.
Defined.

(** C6. A failure of the storage collaborator becomes an HTTP error of
    status 500 whose detail is the text of the exception: in
    [list_guestbook] when [get_documents] raises, in [add_guestbook] when
    [create_document] raises (the call is made once the name and the
    message have passed the emptiness check). *)
Theorem storage_failure_is_500
    (isoformat : N -> datetime -> str) (w : world) (hist : list event) (e : exn) :
  (forall limit,
     get_documents w hist "guestbook" ∅ limit = inl e ->
     (run w (list_guestbook isoformat limit) hist).1 =
       Raised {| status_code := 500; detail := exn_str e |}) /\
  (forall payload,
     strip (name payload) <> [] ->
     strip (message payload) <> [] ->
     create_document w hist "guestbook" (guestbook_data payload) = inl e ->
     (run w (add_guestbook isoformat payload) hist).1 =
       Raised {| status_code := 500; detail := exn_str e |}).
Proof.
  split.
  - intros limit H. unfold list_guestbook. cbn [run]. by rewrite H.
  - intros payload Hn Hm H.
    rewrite (add_guestbook_filled _ _ _ _ Hn Hm). cbv zeta. by rewrite H.
Qed.

Lemma storage_failure_is_500_witness :
  (run (failing_world connection_refused) (list_guestbook (fun _ _ => []) 50) []).1 =
    Raised {| status_code := 500; detail := of_ascii "connection refused" |} /\
  (run (failing_world connection_refused)
     (add_guestbook (fun _ _ => []) {| name := of_ascii "Ann"; message := of_ascii "hi" |})
     []).1 =
    Raised {| status_code := 500; detail := of_ascii "connection refused" |}.
Proof.
  destruct (storage_failure_is_500 (fun _ _ => []) (failing_world connection_refused) []
              connection_refused) as [Hget Hpost].
  split.
  - apply (Hget 50%Z). reflexivity.
  - apply (Hpost {| name := of_ascii "Ann"; message := of_ascii "hi" |}).
    + vm_compute. discriminate.
    + vm_compute. discriminate.
    + reflexivity.
Defined.

(* ===================================================================== *)
(** ** GET /guestbook: order of the entries, identifiers as text *)
(* ===================================================================== *)

Section SortFacts.
Context {A : Type} (key : A -> value).

Local Abbreviation asc := (ascending key).
Local Abbreviation is_datetime := (datetime_key key).

Lemma insert_by_Permutation x l r :
  insert_by key x l = inr r -> Permutation (x :: l) r.
Proof.
  revert r. induction l as [| y l IH]; intros r; cbn.
  - by intros [= <-].
  - destruct (py_lt (key y) (key x)) as [e | [|]]; cbn; [done | |].
    + destruct (insert_by key x l) as [e | r']; cbn; [done |].
      intros [= <-]. rewrite perm_swap. by constructor; apply IH.
    + by intros [= <-].
Qed.

Lemma sort_by_Permutation l s :
  sort_by key l = inr s -> Permutation l s.
Proof.
  revert s. induction l as [| x l IH]; intros s; cbn.
  - by intros [= <-].
  - destruct (sort_by key l) as [e | s']; cbn; [done |].
    intros H. apply insert_by_Permutation in H.
    rewrite <- H. by constructor; apply IH.
Qed.

Lemma list_sort_Permutation reversed l s :
  list_sort key reversed l = inr s -> Permutation l s.
Proof.
  unfold list_sort. destruct reversed.
  - destruct (sort_by key (reverse l)) as [e | s'] eqn:Hs; cbn; [done |].
    intros [= <-]. apply sort_by_Permutation in Hs.
    by rewrite reverse_Permutation in Hs |- *.
  - apply sort_by_Permutation.
Qed.

Lemma insert_by_sorted x l :
  is_datetime x -> Forall is_datetime l -> StronglySorted asc l ->
  exists r, insert_by key x l = inr r /\ StronglySorted asc r.
Proof.
  intros [tx Hx] Hl Hs. induction l as [| y l IH]; cbn.
  - eexists. split; [done |]. repeat constructor.
  - apply Forall_cons in Hl as [[ty Hy] Hl].
    apply StronglySorted_cons in Hs as [Hy_le Hs].
    rewrite Hy, Hx. cbn. destruct (ty <? tx) eqn:Hlt.
    + destruct (IH Hl Hs) as (r & Hr & Hsr). rewrite Hr. cbn.
      eexists. split; [done |]. constructor; [done |].
      apply insert_by_Permutation in Hr. rewrite <- Hr.
      constructor; [| done].
      unfold ascending. rewrite Hy, Hx. cbn. apply N.ltb_lt in Hlt. lia.
    + eexists. split; [done |].
      apply N.ltb_ge in Hlt.
      assert (asc x y) by (unfold ascending; by rewrite Hy, Hx).
      constructor; [by constructor |].
      constructor; [done |].
      eapply Forall_impl; [exact Hy_le |].
      unfold ascending in *. cbn. intros z Hz. lia.
Qed.

Lemma sort_by_sorted l :
  Forall is_datetime l ->
  exists s, sort_by key l = inr s /\ StronglySorted asc s.
Proof.
  induction l as [| x l IH]; intros Hl; cbn.
  - eexists. split; [done | constructor].
  - apply Forall_cons in Hl as [Hx Hl].
    destruct (IH Hl) as (s & Hs & Hsorted). rewrite Hs. cbn.
    apply insert_by_sorted; [done | | done].
    apply sort_by_Permutation in Hs. by rewrite <- Hs.
Qed.

Lemma StronglySorted_reverse (R : relation A) l :
  StronglySorted R l -> StronglySorted (flip R) (reverse l).
Proof.
  induction 1 as [| x l Hs IH Hx].
  { constructor. }
  rewrite reverse_cons. apply StronglySorted_app_2; [| done | repeat constructor].
  intros a b Ha Hb. apply list_elem_of_singleton in Hb as ->.
  rewrite elem_of_reverse in Ha. unfold flip.
  rewrite Forall_forall in Hx. by apply Hx.
Qed.

(** With [reverse=True] and keys that are all datetimes, the sort ends and
    its outcome is in non-increasing order of the keys. *)
Lemma list_sort_reversed_sorted l :
  Forall is_datetime l ->
  exists s, list_sort key true l = inr s /\ StronglySorted (flip asc) s.
Proof.
  intros Hl. unfold list_sort.
  destruct (sort_by_sorted (reverse l)) as (s & Hs & Hsorted).
  { by apply Forall_reverse. }
  rewrite Hs. cbn. eexists. split; [done |].
  by apply StronglySorted_reverse.
Qed.

End SortFacts.

(** The key [list_guestbook] sorts by is the timestamp of the document. *)
Lemma timestamp_key d : ticks (created_at_key d) = timestamp d.
Proof.
  unfold timestamp, created_at_key. by destruct (d !! "created_at") as [[] |].
Qed.

Lemma timestamped_key d : timestamped d -> exists t, created_at_key d = VDatetime t.
Proof.
  unfold timestamped, created_at_key.
  destruct (d !! "created_at") as [[] |]; try done; by eexists.
Qed.

Lemma timestamped_keys (objs : list dict) (l : list nat) :
  Forall (fun r => timestamped (deref objs r)) l ->
  Forall (datetime_key (fun r => created_at_key (deref objs r))) l.
Proof.
  intros H. eapply Forall_impl; [exact H |]. intros r. apply timestamped_key.
Qed.

Section ListGuestbook.
Variable isoformat : N -> datetime -> str.

Lemma text_id_idemp d : text_id isoformat (text_id isoformat d) = text_id isoformat d.
Proof.
  unfold text_id. destruct (d !! "_id") as [v |] eqn:Hv.
  - rewrite lookup_insert_eq. cbn. by rewrite insert_insert_eq.
  - by rewrite Hv.
Qed.

Lemma text_id_empty : text_id isoformat ∅ = ∅.
Proof. done. Qed.

Lemma text_id_entry_of d : entry_of isoformat d (text_id isoformat d).
Proof.
  unfold entry_of, text_id. destruct (d !! "_id") as [v |] eqn:Hv.
  - split; [| split].
    + intros v' [= <-]. by rewrite lookup_insert_eq.
    + intros k Hk. by rewrite lookup_insert_ne.
    + intros (_ & n & m & t & Hn & Hm & Ht).
      exists (py_str isoformat v), n, m, t.
      rewrite lookup_insert_eq, !lookup_insert_ne by done. done.
  - split; [| split]; [by rewrite Hv | done |].
    intros ([v Hv'] & _). congruence.
Qed.

Lemma timestamp_text_id d : timestamp (text_id isoformat d) = timestamp d.
Proof.
  unfold timestamp.
  by rewrite (proj1 (proj2 (text_id_entry_of d)) "created_at"%string).
Qed.

(** One round of the loop on the object table. *)
Lemma deref_convert_id objs r r' :
  deref (convert_id isoformat objs r) r' =
  if decide (r = r') then text_id isoformat (deref objs r') else deref objs r'.
Proof.
  unfold convert_id, deref.
  destruct (objs !! r) as [d |] eqn:Hd.
  - destruct (d !! "_id") as [v |] eqn:Hv.
    + case_decide as Hr.
      * subst r'. rewrite list_lookup_insert_eq by (by eapply lookup_lt_Some).
        rewrite Hd. cbn. unfold text_id. by rewrite Hv.
      * by rewrite list_lookup_insert_ne.
    + case_decide as Hr; [| done].
      subst r'. rewrite Hd. cbn. unfold text_id. by rewrite Hv.
  - case_decide as Hr; [| done]. subst r'. by rewrite Hd.
Qed.

(** The whole loop: an object reached through several elements of the list
    is converted several times, with the outcome of one conversion. *)
Lemma deref_foldl_convert_id l objs r :
  deref (foldl (convert_id isoformat) objs l) r =
  if decide (r ∈ l) then text_id isoformat (deref objs r) else deref objs r.
Proof.
  revert objs. induction l as [| x l IH]; intros objs; cbn.
  - case_decide as H; [by apply elem_of_nil in H | done].
  - rewrite IH, deref_convert_id.
    destruct (decide (r ∈ x :: l)) as [Hin | Hin], (decide (r ∈ l)) as [Hl | Hl],
      (decide (x = r)) as [Hx | Hx]; subst; try done.
    + apply text_id_idemp.
    + apply elem_of_cons in Hin as [? | ?]; congruence.
    + exfalso. apply Hin. by right.
    + exfalso. apply Hin. by right.
    + exfalso. apply Hin. by left.
Qed.

Lemma run_list_guestbook w hist limit docs :
  get_documents w hist "guestbook" ∅ limit = inr docs ->
  (run w (list_guestbook isoformat limit) hist).1 =
  match list_sort (fun r => created_at_key (deref (objects docs) r)) true (refs docs) with
  | inl e => Raised {| status_code := 500; detail := exn_str e |}
  | inr sorted => Returned (map (fun r => text_id isoformat (deref (objects docs) r)) sorted)
  end.
Proof.
  intros Hget. unfold list_guestbook. cbn [run]. rewrite Hget.
  destruct (list_sort _ true (refs docs)) as [e | sorted]; [done |].
  cbn. f_equal. apply map_ext_in. intros r Hr.
  rewrite deref_foldl_convert_id, decide_True; [done |].
  by apply list_elem_of_In.
Qed.

End ListGuestbook.




(** The order on a list with a document that has no [created_at]: the
    handler puts it last and the response model refuses the list. *)
Example list_guestbook_missing_created_at :
  let returned :=
    (run (world_with_documents two_documents) (list_guestbook (fun _ _ => []) 50) []).1 in
  option_map (map (fun e => e !! "created_at"))
    match returned with Returned entries => Some entries | Raised _ => None end =
    Some [Some (VDatetime 7); Some (VDatetime 7); None] /\
  list_guestbook_response returned = Raised ResponseValidationError.
Proof. split; vm_compute; reflexivity. Qed.

(** X17. Every entry of the list the handler [list_guestbook] returns,
    before the response model is applied, is one of the documents
    [get_documents] returned (each of them appears), with its identifier,
    when the document has one, replaced by its text and its other fields
    unchanged; so a stored document with an identifier, a name, a message
    and a timestamp gives an entry with a string identifier, the name, the
    message and the timestamp.  The handler returns such a list whenever
    the [created_at] of the documents, where present, is a datetime. *)
Theorem list_guestbook_ids_as_text
    (isoformat : N -> datetime -> str) (w : world) (hist : list event)
    (limit : Z) (docs : documents) :
  get_documents w hist "guestbook" ∅ limit = inr docs ->
  (forall entries,
     (run w (list_guestbook isoformat limit) hist).1 = Returned entries ->
     exists sorted,
       Permutation (refs docs) sorted /\
       Forall2 (entry_of isoformat) (map (deref (objects docs)) sorted) entries) /\
  (Forall (fun r => timestamped (deref (objects docs) r)) (refs docs) ->
   exists entries, (run w (list_guestbook isoformat limit) hist).1 = Returned entries).
Proof.
  intros Hget. rewrite (run_list_guestbook isoformat _ _ _ _ Hget). split.
  - intros entries Hrun.
    destruct (list_sort _ true (refs docs)) as [e | sorted] eqn:Hsort; [done |].
    injection Hrun as <-. exists sorted. split.
    + by eapply list_sort_Permutation.
    + clear Hsort. induction sorted as [| r l IH]; cbn; constructor; [| done].
      apply text_id_entry_of.
  - intros Htyped.
    destruct (list_sort_reversed_sorted
                (fun r => created_at_key (deref (objects docs) r)) (refs docs)
                (timestamped_keys _ _ Htyped))
      as (sorted & -> & _).
    by eexists.
Qed.

Lemma list_guestbook_ids_as_text_witness :
  exists sorted,
    Permutation (refs two_documents) sorted /\
    Forall2 (entry_of (fun _ _ => [])) (map (deref (objects two_documents)) sorted)
      (map (fun r => text_id (fun _ _ => []) (deref (objects two_documents) r))
         [1; 1; 0]%nat).
Proof.
  destruct (list_guestbook_ids_as_text (fun _ _ => [])
              (world_with_documents two_documents) [] 50%Z two_documents eq_refl)
    as [Hentries _].
  apply Hentries. vm_compute. reflexivity.
Defined.

(** C7. The response of [list_guestbook] carries no identifier at all:
    [_id] is not a field of [GuestbookEntry], so the response model leaves
    out the text the handler has put under [_id].  Every entry of a
    response is a name, a message and a creation time and nothing else.
    For documents as the store keeps them (an identifier, a name, a
    message, a creation time) there is a response, and its entries are the
    documents in the order of the handler, with these three fields as
    stored, while the list the handler returned had each identifier as its
    text. *)
Theorem list_guestbook_response_has_no_id
    (isoformat : N -> datetime -> str) (w : world) (hist : list event)
    (limit : Z) (docs : documents) :
  get_documents w hist "guestbook" ∅ limit = inr docs ->
  (forall body,
     list_guestbook_response (run w (list_guestbook isoformat limit) hist).1 =
       Returned body ->
     Forall (fun e =>
               e !! "_id" = None /\
               exists n m t,
                 e = <["name" := VStr n]>
                       (<["message" := VStr m]> (<["created_at" := VDatetime t]> ∅)))
       body) /\
  (Forall (fun r => stored_shape (deref (objects docs) r)) (refs docs) ->
   exists sorted body,
     Permutation (refs docs) sorted /\
     (run w (list_guestbook isoformat limit) hist).1 =
       Returned (map (fun r => text_id isoformat (deref (objects docs) r)) sorted) /\
     Forall (fun r => exists v,
               deref (objects docs) r !! "_id" = Some v /\
               text_id isoformat (deref (objects docs) r) !! "_id" =
                 Some (VStr (py_str isoformat v)))
       sorted /\
     list_guestbook_response (run w (list_guestbook isoformat limit) hist).1 =
       Returned body /\
     Forall2 (fun r e =>
                e !! "_id" = None /\
                e !! "name" = deref (objects docs) r !! "name" /\
                e !! "message" = deref (objects docs) r !! "message" /\
                e !! "created_at" = deref (objects docs) r !! "created_at")
       sorted body).
Proof.
  intros Hget. rewrite (run_list_guestbook isoformat _ _ _ _ Hget). split.
  - intros body. unfold list_guestbook_response, response_model.
    destruct (list_sort _ true (refs docs)) as [e | sorted]; [done |].
    destruct (mapM _ _) as [body' |] eqn:Hbody; [| done]. intros [= <-].
    apply mapM_Some_1 in Hbody.
    induction Hbody as [| d e ds es He _ IH]; constructor; [| exact IH].
    split; [exact (proj1 (model_validate_Some _ _ He)) |].
    apply model_validate_inv in He as (n & m & t & _ & _ & _ & ->). by exists n, m, t.
  - intros Hshape.
    assert (Htyped : Forall (fun r => timestamped (deref (objects docs) r)) (refs docs)).
    { eapply Forall_impl; [exact Hshape |].
      intros r (_ & n & m & t & _ & _ & Ht). unfold timestamped. by rewrite Ht. }
    destruct (list_sort_reversed_sorted
                (fun r => created_at_key (deref (objects docs) r)) (refs docs)
                (timestamped_keys _ _ Htyped))
      as (sorted & Hsort & _).
    rewrite Hsort.
    assert (Hperm : Permutation (refs docs) sorted) by (by eapply list_sort_Permutation).
    rewrite Hperm in Hshape. clear Hsort Htyped.
    assert (Hbody : forall l,
              Forall (fun r => stored_shape (deref (objects docs) r)) l ->
              exists body,
                mapM (model_validate GuestbookEntry)
                  (map (fun r => text_id isoformat (deref (objects docs) r)) l) =
                  Some body /\
                Forall2 (fun r e =>
                           e !! "_id" = None /\
                           e !! "name" = deref (objects docs) r !! "name" /\
                           e !! "message" = deref (objects docs) r !! "message" /\
                           e !! "created_at" = deref (objects docs) r !! "created_at")
                  l body).
    { intros l0 Hl0. induction Hl0 as [| r l Hr Hl (body & Hbody & Hall)]; [by exists [] |].
      destruct (text_id_entry_of isoformat (deref (objects docs) r)) as (_ & Hother & Hentry).
      destruct (Hentry Hr) as (i & n & m & t & _ & Hn & Hm & Ht).
      eexists (_ :: body). split.
      - cbn. rewrite (model_validate_fields _ n m t Hn Hm Ht). cbn.
        rewrite Hbody. reflexivity.
      - constructor; [| exact Hall].
        rewrite <- !Hother by done. rewrite Hn, Hm, Ht. by simplify_map_eq. }
    destruct (Hbody sorted Hshape) as (body & Hmap & Hall).
    exists sorted, body. split; [exact Hperm |]. split; [done |].
    split; [| split; [| exact Hall]].
    + eapply Forall_impl; [exact Hshape |].
      intros r ([v Hv] & _). exists v. split; [done |].
      by apply (proj1 (text_id_entry_of isoformat _)).
    + unfold list_guestbook_response, response_model. by rewrite Hmap.
Qed.

Lemma list_guestbook_response_has_no_id_witness :
  list_guestbook_response
    (run (world_with_documents stored_documents) (list_guestbook (fun _ _ => []) 50) []).1 =
    Returned
      [ <["name" := VStr (of_ascii "Bob")]>
          (<["message" := VStr (of_ascii "hi")]> (<["created_at" := VDatetime 7]> ∅));
        <["name" := VStr (of_ascii "Ann")]>
          (<["message" := VStr (of_ascii "hello")]> (<["created_at" := VDatetime 3]> ∅)) ] /\
  Forall (fun e : dict =>
            e !! "_id" = None /\
            exists n m t,
              e = <["name" := VStr n]>
                    (<["message" := VStr m]> (<["created_at" := VDatetime t]> ∅)))
    [ <["name" := VStr (of_ascii "Bob")]>
        (<["message" := VStr (of_ascii "hi")]> (<["created_at" := VDatetime 7]> ∅));
      <["name" := VStr (of_ascii "Ann")]>
        (<["message" := VStr (of_ascii "hello")]> (<["created_at" := VDatetime 3]> ∅)) ].
Proof.
  assert (Hresponse :
    list_guestbook_response
      (run (world_with_documents stored_documents) (list_guestbook (fun _ _ => []) 50) []).1 =
    Returned
      [ <["name" := VStr (of_ascii "Bob")]>
          (<["message" := VStr (of_ascii "hi")]> (<["created_at" := VDatetime 7]> ∅));
        <["name" := VStr (of_ascii "Ann")]>
          (<["message" := VStr (of_ascii "hello")]> (<["created_at" := VDatetime 3]> ∅)) ]).
  { vm_compute. reflexivity. }
  split; [exact Hresponse |].
  destruct (list_guestbook_response_has_no_id (fun _ _ => [])
              (world_with_documents stored_documents) [] 50%Z stored_documents eq_refl)
    as [Hentries _].
  apply Hentries. exact Hresponse.
Defined.

(** The same request before and after the response model: the handler
    returns the identifiers as text, the response has none. *)
Example list_guestbook_response_sample :
  let returned :=
    (run (world_with_documents stored_documents) (list_guestbook (fun _ _ => []) 50) []).1 in
  option_map (map (fun e => e !! "_id"))
    match returned with Returned entries => Some entries | Raised _ => None end =
    Some [Some (VStr (of_ascii "65a2")); Some (VStr (of_ascii "65a1"))] /\
  option_map (map (fun e => e !! "_id"))
    match list_guestbook_response returned with
    | Returned body => Some body
    | Raised _ => None
    end = Some [None; None].
Proof. split; vm_compute; reflexivity. Qed.

(** Outside the data model, two keys that cannot be compared make the sort
    raise, and the handler answers 500: a document whose [created_at] is a
    string next to one that has none. *)
Example list_guestbook_mixed_keys :
  (run (world_with_documents
          {| objects := [ <["created_at" := VStr (of_ascii "2024-01-01")]> ∅; ∅ ];
             refs := [0; 1]%nat |})
       (list_guestbook (fun _ _ => []) 50) []).1 =
  Raised {| status_code := 500;
            detail := of_ascii
              "'<' not supported between instances of 'str' and 'datetime.datetime'" |}.
Proof. vm_compute. reflexivity. Qed.

(* ===================================================================== *)
(** ** The sanitization of the message *)
(* ===================================================================== *)

Section Engine.

Lemma match_here_lits ls p s rest :
  match_here (map (fun c => One (Lit c)) ls ++ p) s = Some rest <->
  exists pre r, s = pre ++ r /\ Forall2 lit_ok ls pre /\ match_here p r = Some rest.
Proof.
  revert s. induction ls as [| l ls IH]; intros s.
  - cbn. split.
    + intros H. exists [], s. by repeat split; [constructor |].
    + intros (pre & r & -> & Hpre & H). by apply Forall2_nil_inv_l in Hpre as ->.
  - cbn -[atom_ok]. destruct s as [| c s].
    + split; [done |]. intros (pre & r & Hs & Hpre & _).
      apply Forall2_cons_inv_l in Hpre as (? & ? & _ & _ & ->). done.
    + destruct (atom_ok (Lit l) c) eqn:Hc.
      * rewrite IH. split.
        -- intros (pre & r & -> & Hpre & H). exists (c :: pre), r.
           repeat split; [by constructor | done].
        -- intros (pre & r & Hs & Hpre & H).
           apply Forall2_cons_inv_l in Hpre as (c' & pre' & _ & Hpre' & ->).
           injection Hs as <- ->. eauto.
      * split; [done |]. intros (pre & r & Hs & Hpre & _).
        apply Forall2_cons_inv_l in Hpre as (c' & pre' & Hc' & _ & ->).
        injection Hs as <- _. unfold lit_ok in Hc'. congruence.
Qed.

(** A run of characters that are not whitespace, up to a boundary, is
    determined by the string. *)
Lemma run_unique body body' rest rest' :
  Forall nonspace body -> Forall nonspace body' ->
  at_boundary rest -> at_boundary rest' ->
  body ++ rest = body' ++ rest' -> body = body' /\ rest = rest'.
Proof.
  intros Hbody. revert body'.
  induction Hbody as [| x body Hx Hbody IH]; intros body' Hbody' Hb Hb' Hs.
  - destruct Hbody' as [| y body' Hy _]; [done |].
    cbn in Hs. subst rest. cbn in Hb. unfold nonspace in Hy. congruence.
  - destruct Hbody' as [| y body' Hy Hbody'].
    + cbn in Hs. subst rest'. cbn in Hb'. unfold nonspace in Hx. congruence.
    + injection Hs as <- Hs. destruct (IH body' Hbody' Hb Hb' Hs) as [-> ->]. done.
Qed.

Lemma run_exists (s : str) :
  exists body rest, s = body ++ rest /\ Forall nonspace body /\ at_boundary rest.
Proof.
  induction s as [| c s (body & rest & -> & Hbody & Hb)].
  - exists [], []. by repeat split.
  - destruct (isspace c) eqn:Hc.
    + exists [], (c :: body ++ rest). by repeat split.
    + exists (c :: body), rest. repeat split; [by constructor | done].
Qed.

(** [[^\s]+] at the end of the pattern takes the whole run of characters
    that are not whitespace. *)
Lemma match_plus_run s rest :
  match_plus Not_space (fun s => Some s) s = Some rest <->
  exists body,
    body <> [] /\ Forall nonspace body /\ s = body ++ rest /\ at_boundary rest.
Proof.
  revert rest. induction s as [| c s IH]; intros rest; cbn.
  - split; [done |]. intros (body & Hne & _ & Hs & _).
    symmetry in Hs. by apply app_eq_nil in Hs as [-> _].
  - destruct (isspace c) eqn:Hc; cbn.
    + split; [done |]. intros ([| c' body] & Hne & Hbody & Hs & _); [done |].
      injection Hs as <- _. apply Forall_cons in Hbody as [Hc' _].
      unfold nonspace in Hc'. congruence.
    + destruct (match_plus Not_space (fun s => Some s) s) as [rest' |] eqn:Hrun.
      * destruct (proj1 (IH rest') eq_refl) as (body & Hne & Hbody & -> & Hb).
        clear IH. split.
        -- intros [= <-]. exists (c :: body).
           split; [discriminate |]. split; [by constructor |]. by split.
        -- intros ([| c' body'] & Hne' & Hbody' & Hs & Hb'); [done |].
           injection Hs as <- Hs. apply Forall_cons in Hbody' as [_ Hbody'].
           by destruct (run_unique _ _ _ _ Hbody Hbody' Hb Hb' Hs) as [_ ->].
      * split.
        -- intros [= <-]. exists [c].
           split; [discriminate |]. split; [by repeat constructor |]. split; [done |].
           destruct s as [| c' s]; [done |]. cbn in Hrun |- *.
           destruct (isspace c'); [done |]. cbn in Hrun.
           by destruct (match_plus Not_space (fun s => Some s) s).
        -- intros ([| c' body] & Hne & Hbody & Hs & Hb); [done |].
           injection Hs as <- ->. apply Forall_cons in Hbody as [_ Hbody].
           destruct body as [| x body].
           ++ cbn in Hrun. destruct rest as [| y rest]; [done |]. cbn in Hb, Hrun.
              rewrite Hb in Hrun. cbn in Hrun. done.
           ++ assert (None = Some rest) as Habs; [| done].
              apply IH. exists (x :: body). split; [discriminate |]. by repeat split.
Qed.

Lemma lit_ok_In l c : lit_ok l c <-> In c (ignorecase_set l).
Proof.
  unfold lit_ok. cbn. rewrite existsb_exists. split.
  - intros (x & Hx & Heq). apply N.eqb_eq in Heq. by subst.
  - intros H. exists c. split; [done | apply N.eqb_refl].
Qed.

(** A test that holds of every character a literal accepts holds of every
    character of a text matched by the literals. *)
Lemma letters_forall (pb : N -> bool) ls pre :
  Forall2 lit_ok ls pre ->
  forallb (fun l => forallb pb (ignorecase_set l)) ls = true ->
  Forall (fun c => pb c = true) pre.
Proof.
  induction 1 as [| l c ls pre Hc _ IH]; cbn -[ignorecase_set]; [constructor |].
  intros [Hl Hls]%andb_true_iff. constructor; [| by apply IH].
  rewrite forallb_forall in Hl. by apply Hl, lit_ok_In.
Qed.

(** On the letters of the scheme the compiled literals accept exactly the
    characters that are the same letter after case folding. *)
Ltac letter_case :=
  match goal with
  | |- casefold ?c = casefold ?l <-> atom_ok (Lit ?l) ?c = true =>
      let f := eval vm_compute in (casefold l) in
      let set := eval vm_compute in (ignorecase_set l) in
      change (casefold l) with f;
      change (atom_ok (Lit l) c) with (existsb (N.eqb c) set);
      cbn [existsb]; rewrite ?orb_true_iff, ?N.eqb_eq; unfold casefold;
      destruct (N.leb_spec 0x41 c), (N.leb_spec c 0x5A),
        (N.eqb_spec c 0x17F), (N.eqb_spec c 0x212A); cbn [andb]; lia
  end.

Lemma scheme_letter l c :
  In l (of_ascii "https://") -> same_letter l c <-> lit_ok l c.
Proof.
  intros Hl. vm_compute in Hl. unfold same_letter, lit_ok.
  repeat (destruct Hl as [<- | Hl]; [letter_case |]). done.
Qed.

Lemma scheme_letters ls p :
  incl ls (of_ascii "https://") ->
  Forall2 same_letter ls p <-> Forall2 lit_ok ls p.
Proof.
  intros Hls. split; intros H; induction H as [| l c ls p Hc _ IH]; constructor;
    try (apply IH; intros x Hx; apply Hls; by right).
  - apply scheme_letter; [apply Hls; by left | done].
  - apply scheme_letter; [apply Hls; by left | done].
Qed.

Lemma is_scheme_lits p :
  is_scheme p <->
  Forall2 lit_ok (of_ascii "http://") p \/ Forall2 lit_ok (of_ascii "https://") p.
Proof.
  unfold is_scheme. rewrite !scheme_letters; [done | |].
  - intros x Hx. exact Hx.
  - intros x Hx. cbn in Hx |- *. tauto.
Qed.

Lemma is_scheme_forall (pb : N -> bool) sch :
  forallb (fun l => forallb pb (ignorecase_set l)) (of_ascii "https://") = true ->
  is_scheme sch -> Forall (fun c => pb c = true) sch.
Proof.
  intros Hpb [H | H]%is_scheme_lits; (eapply letters_forall; [exact H |]); [| exact Hpb].
  rewrite forallb_forall in Hpb |- *. intros l Hl. apply Hpb.
  cbn in Hl |- *. tauto.
Qed.

Lemma is_scheme_nonspace sch : is_scheme sch -> Forall nonspace sch.
Proof.
  intros H. apply (is_scheme_forall (fun c => negb (isspace c))) in H; [| done].
  eapply Forall_impl; [exact H |]. intros c Hc. by apply negb_true_iff in Hc.
Qed.

Lemma is_scheme_chars sch : is_scheme sch -> Forall (fun c => scheme_char c = true) sch.
Proof. by apply is_scheme_forall. Qed.

Lemma is_scheme_cons sch : is_scheme sch -> exists c sch', sch = c :: sch' /\ lit_ok 0x68 c.
Proof.
  intros [H | H]%is_scheme_lits;
    apply Forall2_cons_inv_l in H as (c & sch' & Hc & _ & ->); eauto.
Qed.

Lemma is_url_nonspace u : is_url u -> Forall nonspace u.
Proof.
  intros (sch & body & Hsch & _ & Hbody & ->).
  apply Forall_app. split; [by apply is_scheme_nonspace | done].
Qed.

Lemma URL_REGEX_eq :
  URL_REGEX = map (fun c => One (Lit c)) (of_ascii "http") ++ Opt (Lit 0x73) :: URL_TAIL.
Proof. reflexivity. Qed.

Lemma match_here_Opt a p s :
  match_here (Opt a :: p) s =
  match (match s with
         | c :: r => if atom_ok a c then match_here p r else None
         | [] => None
         end) with
  | Some rest => Some rest
  | None => match_here p s
  end.
Proof. reflexivity. Qed.

Lemma match_tail s rest :
  match_here URL_TAIL s = Some rest <->
  exists pre body,
    Forall2 lit_ok (of_ascii "://") pre /\ body <> [] /\ Forall nonspace body /\
    s = pre ++ body ++ rest /\ at_boundary rest.
Proof.
  unfold URL_TAIL, lits. rewrite match_here_lits. split.
  - intros (pre & r & -> & Hpre & Hm).
    change (match_here [Plus Not_space] r) with (match_plus Not_space (fun s => Some s) r) in Hm.
    apply match_plus_run in Hm as (body & Hne & Hbody & -> & Hb).
    by exists pre, body.
  - intros (pre & body & Hpre & Hne & Hbody & -> & Hb).
    exists pre, (body ++ rest). repeat split; [done |].
    change (match_here [Plus Not_space] (body ++ rest))
      with (match_plus Not_space (fun s => Some s) (body ++ rest)).
    apply match_plus_run. by exists body.
Qed.

Lemma match_tail_colon s rest :
  match_here URL_TAIL s = Some rest -> exists r, s = 0x3A :: r.
Proof.
  intros (pre & body & Hpre & _ & _ & -> & _)%match_tail.
  apply Forall2_cons_inv_l in Hpre as (c & pre' & Hc & _ & ->).
  apply lit_ok_In in Hc. cbn in Hc. destruct Hc as [<- | []]. eauto.
Qed.

(** What the pattern matches at the start of a string: a scheme, then the
    whole run of characters that are not whitespace, which is not empty. *)
Lemma match_url s rest :
  match_here URL_REGEX s = Some rest <->
  exists sch body,
    is_scheme sch /\ body <> [] /\ Forall nonspace body /\
    s = sch ++ body ++ rest /\ at_boundary rest.
Proof.
  rewrite URL_REGEX_eq, match_here_lits. split.
  - intros (pre4 & r & -> & H4 & Hm). rewrite match_here_Opt in Hm.
    assert (match_here URL_TAIL r = Some rest \/
            exists c r', r = c :: r' /\ lit_ok 0x73 c /\
                         match_here URL_TAIL r' = Some rest) as [Ht | (c & r' & -> & Hc & Ht)].
    { destruct r as [| c r']; [by left |].
      destruct (atom_ok (Lit 0x73) c) eqn:Hc; [| by left].
      destruct (match_here URL_TAIL r') as [rest' |] eqn:Ht; [| by left].
      right. exists c, r'. by injection Hm as <-. }
    + apply match_tail in Ht as (pre3 & body & H3 & Hne & Hbody & -> & Hb).
      exists (pre4 ++ pre3), body. repeat split; try done.
      * apply is_scheme_lits. left. change (of_ascii "http://") with (of_ascii "http" ++ of_ascii "://").
        by apply Forall2_app.
      * by rewrite <- app_assoc.
    + apply match_tail in Ht as (pre3 & body & H3 & Hne & Hbody & -> & Hb).
      exists (pre4 ++ c :: pre3), body. repeat split; try done.
      * apply is_scheme_lits. right. change (of_ascii "https://") with (of_ascii "http" ++ 0x73 :: of_ascii "://").
        apply Forall2_app; [done |]. by constructor.
      * by rewrite <- app_assoc.
  - intros (sch & body & [H | H]%is_scheme_lits & Hne & Hbody & -> & Hb).
    + change (of_ascii "http://") with (of_ascii "http" ++ of_ascii "://") in H.
      apply Forall2_app_inv_l in H as (pre4 & pre3 & H4 & H3 & ->).
      exists pre4, (pre3 ++ body ++ rest). split; [by rewrite <- app_assoc |].
      split; [done |].
      assert (match_here URL_TAIL (pre3 ++ body ++ rest) = Some rest) as Ht.
      { apply match_tail. by exists pre3, body. }
      rewrite match_here_Opt.
      destruct (match_tail_colon _ _ Ht) as [r Hr]. rewrite Hr in Ht |- *.
      change (atom_ok (Lit 0x73) 0x3A) with false. cbn iota. exact Ht.
    + change (of_ascii "https://") with (of_ascii "http" ++ 0x73 :: of_ascii "://") in H.
      apply Forall2_app_inv_l in H as (pre4 & pre3' & H4 & H3 & ->).
      apply Forall2_cons_inv_l in H3 as (c & pre3 & Hc & H3 & ->).
      exists pre4, (c :: pre3 ++ body ++ rest). split; [by rewrite <- app_assoc |].
      split; [done |].
      rewrite match_here_Opt. unfold lit_ok in Hc. rewrite Hc.
      assert (match_here URL_TAIL (pre3 ++ body ++ rest) = Some rest) as ->; [| done].
      apply match_tail. by exists pre3, body.
Qed.

(** The pattern matches at the start of [s] exactly when a URL begins
    there. *)
Lemma starts_url_match s :
  starts_url s <-> exists rest, match_here URL_REGEX s = Some rest.
Proof.
  split.
  - intros (sch & c & t & Hsch & Hc & ->).
    destruct (run_exists t) as (body & rest & -> & Hbody & Hb).
    exists rest. apply match_url. exists sch, (c :: body).
    split; [done |]. split; [discriminate |]. split; [by constructor |]. by split.
  - intros [rest (sch & [| c body] & Hsch & Hne & Hbody & -> & Hb)%match_url]; [done |].
    apply Forall_cons in Hbody as [Hc _]. by exists sch, c, (body ++ rest).
Qed.

Lemma no_match s : match_here URL_REGEX s = None <-> ~ starts_url s.
Proof.
  rewrite starts_url_match. split.
  - intros H [rest Hrest]. congruence.
  - intros H. destruct (match_here URL_REGEX s) as [rest |]; [| done].
    exfalso. eauto.
Qed.

Lemma starts_url_app s t : starts_url s -> starts_url (s ++ t).
Proof.
  intros (sch & c & r & Hsch & Hc & ->). exists sch, c, (r ++ t).
  by rewrite <- app_assoc.
Qed.

Lemma starts_url_head c s : starts_url (c :: s) -> lit_ok 0x68 c.
Proof.
  intros (sch & x & t & Hsch & _ & Hs).
  apply is_scheme_cons in Hsch as (c' & sch' & -> & Hc'). by injection Hs as ->.
Qed.

(** Where the boundary between [a] and [b] falls in a URL that begins
    [a ++ b]. *)
Lemma starts_url_split a b :
  starts_url (a ++ b) ->
  starts_url a \/
  (is_scheme a /\ exists c t, b = c :: t /\ nonspace c) \/
  (exists c t, b = c :: t /\ scheme_char c = true).
Proof.
  intros (sch & c & t & Hsch & Hc & Hs).
  apply app_eq_app in Hs as [l [[-> Hl] | [-> Hl]]].
  - destruct l as [| x l].
    + right; left. rewrite app_nil_r. split; [done |]. cbn in Hl. eauto.
    + injection Hl as <- ->. left. by exists sch, c, l.
  - destruct l as [| x l].
    + right; left. rewrite app_nil_r in Hsch. split; [done |]. cbn in Hl. eauto.
    + right; right. exists x, (l ++ c :: t). split; [done |].
      apply is_scheme_chars in Hsch.
      apply Forall_app in Hsch as [_ Hsch]. by apply Forall_cons in Hsch as [Hx _].
Qed.

Lemma contains_url_starts t :
  contains_url t <-> exists pre post, t = pre ++ post /\ starts_url post.
Proof.
  split.
  - intros (pre & u & post & -> & sch & [| c body] & Hsch & Hne & Hbody & ->); [done |].
    apply Forall_cons in Hbody as [Hc _].
    exists pre, ((sch ++ c :: body) ++ post). split; [done |].
    exists sch, c, (body ++ post). by rewrite <- app_assoc.
  - intros (pre & post & -> & sch & c & r & Hsch & Hc & ->).
    exists pre, (sch ++ [c]), r. split; [by rewrite <- app_assoc |].
    exists sch, [c]. split; [done |]. split; [discriminate |]. by repeat constructor.
Qed.

(** [search], for any pattern. *)
Lemma search_eq p s :
  search p s =
  match match_here p s with
  | Some rest => Some ([], rest)
  | None =>
      match s with
      | [] => None
      | c :: r =>
          match search p r with
          | Some (g, rest) => Some (c :: g, rest)
          | None => None
          end
      end
  end.
Proof. by destruct s. Qed.

Lemma search_None p s :
  search p s = None <-> forall s1 s2, s = s1 ++ s2 -> match_here p s2 = None.
Proof.
  induction s as [| c s IH]; rewrite search_eq.
  - destruct (match_here p []) eqn:Hm.
    + split; [done |]. intros H. by rewrite (H [] []) in Hm.
    + split; [| done]. intros _ s1 s2 Hs. symmetry in Hs.
      by apply app_eq_nil in Hs as [_ ->].
  - destruct (match_here p (c :: s)) eqn:Hm.
    + split; [done |]. intros H. by rewrite (H [] (c :: s)) in Hm.
    + destruct (search p s) as [[g rest] |] eqn:Hs.
      * split; [done |]. intros H.
        assert (Some (g, rest) = None) as Habs; [| done].
        apply IH. intros s1 s2 ->. by apply (H (c :: s1)).
      * split; [| done]. intros _ [| x s1] s2 Heq.
        -- cbn in Heq. by subst s2.
        -- injection Heq as <- ->. by apply (proj1 IH eq_refl s1).
Qed.

Lemma search_Some p s g rest :
  search p s = Some (g, rest) ->
  exists m,
    s = g ++ m /\ match_here p m = Some rest /\
    forall g1 g2, g = g1 ++ g2 -> g2 <> [] -> match_here p (g2 ++ m) = None.
Proof.
  revert g. induction s as [| c s IH]; intros g; rewrite search_eq.
  - destruct (match_here p []) eqn:Hm; [| done].
    intros [= <- <-]. exists []. repeat split; [done |].
    intros g1 g2 Hg Hne. symmetry in Hg. by apply app_eq_nil in Hg as [_ ->].
  - destruct (match_here p (c :: s)) eqn:Hm.
    + intros [= <- <-]. exists (c :: s). repeat split; [done |].
      intros g1 g2 Hg Hne. symmetry in Hg. by apply app_eq_nil in Hg as [_ ->].
    + destruct (search p s) as [[g' rest'] |] eqn:Hs; [| done].
      intros [= <- <-]. destruct (IH g' eq_refl) as (m & -> & Hmatch & Hgap).
      exists m. repeat split; [done |].
      intros [| x g1] g2 Hg Hne.
      * cbn in Hg. by subst g2.
      * injection Hg as <- ->. by apply (Hgap g1).
Qed.

(** [sub] on [URL_REGEX]: the fuel is enough, so [sub] satisfies the
    equation of the loop it stands for. *)
Lemma search_url_shorter s g rest :
  search URL_REGEX s = Some (g, rest) -> (length rest < length s)%nat.
Proof.
  intros (m & -> & (sch & body & _ & Hne & _ & -> & _)%match_url & _)%search_Some.
  rewrite !length_app. destruct body; [done |]. cbn. lia.
Qed.

Lemma sub_loop_fuel repl n m s :
  (length s < n)%nat -> (length s < m)%nat ->
  sub_loop n URL_REGEX repl s = sub_loop m URL_REGEX repl s.
Proof.
  revert m s. induction n as [| n IH]; intros m s Hn Hm; [lia |].
  destruct m as [| m]; [lia |]. cbn [sub_loop].
  destruct (search URL_REGEX s) as [[g rest] |] eqn:Hs; [| done].
  apply search_url_shorter in Hs. do 2 f_equal. apply IH; lia.
Qed.

Lemma sub_eq repl s :
  sub URL_REGEX repl s =
  match search URL_REGEX s with
  | None => s
  | Some (g, rest) => g ++ repl ++ sub URL_REGEX repl rest
  end.
Proof.
  unfold sub at 1. cbn [sub_loop].
  destruct (search URL_REGEX s) as [[g rest] |] eqn:Hs; [| done].
  apply search_url_shorter in Hs. do 2 f_equal. unfold sub. apply sub_loop_fuel; lia.
Qed.

Lemma match_url_head m rest :
  match_here URL_REGEX m = Some rest -> exists c t, m = c :: t /\ nonspace c.
Proof.
  intros (sch & body & Hsch & _ & _ & -> & _)%match_url.
  pose proof (is_scheme_nonspace _ Hsch) as Hns.
  apply is_scheme_cons in Hsch as (c & sch' & -> & _).
  apply Forall_cons in Hns as [Hc _]. by exists c, (sch' ++ body ++ rest).
Qed.

Lemma link_removed_no_start out : ~ starts_url (link_removed ++ out).
Proof.
  change (link_removed ++ out) with (0x5B :: (of_ascii "link removed]" ++ out)).
  by intros H%starts_url_head.
Qed.

Lemma link_removed_no_scheme_char out c t :
  link_removed ++ out = c :: t -> scheme_char c = false.
Proof.
  change (link_removed ++ out) with (0x5B :: (of_ascii "link removed]" ++ out)).
  by intros [= <- _].
Qed.

Lemma link_removed_no_h :
  Forall (fun c => atom_ok (Lit 0x68) c = false) link_removed.
Proof. by repeat constructor. Qed.

(** No URL begins anywhere in the outcome of the substitution. *)
Lemma sub_no_start s t1 t2 :
  sub URL_REGEX link_removed s = t1 ++ t2 -> ~ starts_url t2.
Proof.
  remember (length s) as n eqn:Hn. revert s Hn t1 t2.
  induction n as [n IH] using lt_wf_ind. intros s -> t1 t2.
  rewrite sub_eq. destruct (search URL_REGEX s) as [[g rest] |] eqn:Hs.
  - pose proof (search_url_shorter _ _ _ Hs) as Hlen.
    specialize (IH _ Hlen rest eq_refl).
    apply search_Some in Hs as (m & -> & Hmatch & Hgap).
    intros Heq Hstart.
    apply app_eq_app in Heq as [l [[-> ->] | [-> Heq]]].
    + destruct l as [| x l].
      * by apply link_removed_no_start in Hstart.
      * apply starts_url_split in Hstart as [Hl | [[Hl _] | (c & t & Hc & Hsc)]].
        -- apply (starts_url_app _ m) in Hl.
           apply no_match in Hl; [done |]. by apply (Hgap t1).
        -- destruct (match_url_head _ _ Hmatch) as (c & t & -> & Hc).
           assert (starts_url ((x :: l) ++ c :: t)) as Hst by (by eexists _, c, t).
           apply no_match in Hst; [done |]. by apply (Hgap t1).
        -- apply link_removed_no_scheme_char in Hc. congruence.
    + symmetry in Heq. apply app_eq_app in Heq as [l' [[-> Hout] | [Hl' ->]]].
      * by apply (IH l' t2).
      * destruct l' as [| c l'].
        -- exact (IH [] _ eq_refl Hstart).
        -- rewrite <- app_comm_cons in Hstart. apply starts_url_head in Hstart.
           pose proof link_removed_no_h as Hno. rewrite Hl' in Hno.
           apply Forall_app in Hno as [_ Hno]. apply Forall_cons in Hno as [Hno _].
           unfold lit_ok in Hstart. congruence.
  - intros ->. apply no_match. by apply (proj1 (search_None _ _) Hs t1).
Qed.

End Engine.

(** A closed instance of [contains_url]: the three parts and the scheme
    are given, the letters are compared by evaluation. *)
Ltac url_instance pre sch body post :=
  exists pre, (sch ++ body), post; split; [by vm_compute |];
  exists sch, body; split;
    [first [left; repeat (constructor; [by vm_compute |]); by constructor
           | right; repeat (constructor; [by vm_compute |]); by constructor]
    | split; [done | split; [repeat (constructor; [by vm_compute |]); constructor | done]]].

(** C8. The sanitized message contains no URL: no part of it is
    [http://] or [https://], in any case, followed by one or more
    characters that are not whitespace, while "visit http://evil.example/x"
    and "see HTTP://EVIL.COM/x now" do contain one.  This holds of the
    outcome of the substitution on any text, hence of the message
    [add_guestbook] hands to [create_document], of the message it returns
    and of the message of the response. *)
Theorem sanitized_message_has_no_url
    (isoformat : N -> datetime -> str) (w : world) (hist : list event)
    (payload : GuestbookCreate) :
  (forall s, ~ contains_url (sub URL_REGEX link_removed s)) /\
  contains_url (of_ascii "visit http://evil.example/x") /\
  contains_url (of_ascii "see HTTP://EVIL.COM/x now") /\
  (exists evs,
     (run w (add_guestbook isoformat payload) hist).2 = hist ++ evs /\
     (forall c d a m,
        In (ECreate_document c d a) evs ->
        d !! "message" = Some (VStr m) -> ~ contains_url m) /\
     (forall entry m,
        (run w (add_guestbook isoformat payload) hist).1 = Returned entry ->
        entry !! "message" = Some (VStr m) -> ~ contains_url m)) /\
  (forall body m,
     add_guestbook_response (run w (add_guestbook isoformat payload) hist).1 =
       Returned body ->
     body !! "message" = Some (VStr m) -> ~ contains_url m).
Proof.
  assert (Hsub : forall s, ~ contains_url (sub URL_REGEX link_removed s)).
  { intros s (pre & post & Heq & Hst)%contains_url_starts.
    by apply (sub_no_start s pre post). }
  assert (Hhandler : exists evs,
     (run w (add_guestbook isoformat payload) hist).2 = hist ++ evs /\
     (forall c d a m,
        In (ECreate_document c d a) evs ->
        d !! "message" = Some (VStr m) -> ~ contains_url m) /\
     (forall entry m,
        (run w (add_guestbook isoformat payload) hist).1 = Returned entry ->
        entry !! "message" = Some (VStr m) -> ~ contains_url m)).
  { destruct (strip (name payload)) as [| c0 n0] eqn:Hn;
      [| destruct (strip (message payload)) as [| c1 m1] eqn:Hm].
    - rewrite (add_guestbook_blank isoformat payload) by (by left).
      exists []. cbn. split; [by rewrite app_nil_r |]. by split.
    - rewrite (add_guestbook_blank isoformat payload) by (by right).
      exists []. cbn. split; [by rewrite app_nil_r |]. by split.
    - rewrite (add_guestbook_filled isoformat w payload hist) by congruence.
      cbv zeta.
      assert (Hdata : forall m, guestbook_data payload !! "message" = Some (VStr m) ->
                                ~ contains_url m).
      { intros m. unfold guestbook_data. rewrite lookup_insert_ne, lookup_insert_eq by done.
        intros [= <-]. apply Hsub. }
      destruct (create_document w hist "guestbook" (guestbook_data payload)) as [e | id].
      + eexists [_]. cbn. split; [done |]. split; [| done].
        intros c d a m [[= <- <- <-] | []]. apply Hdata.
      + eexists [_; _; _]. cbn. split; [by rewrite <- !app_assoc |]. split.
        * intros c d a m [[= <- <- <-] | [[=] | [[=] | []]]]. apply Hdata.
        * intros entry m [= <-].
          rewrite lookup_insert_ne, lookup_insert_ne, lookup_insert_eq by done.
          intros [= <-]. apply Hsub. }
  split; [exact Hsub |]. split; [| split; [| split; [exact Hhandler |]]].
  - url_instance (of_ascii "visit ") (of_ascii "http://") (of_ascii "evil.example/x")
      (@nil N).
  - url_instance (of_ascii "see ") (of_ascii "HTTP://") (of_ascii "EVIL.COM/x")
      (of_ascii " now").
  - destruct Hhandler as (evs & _ & _ & Hentry).
    intros body m. unfold add_guestbook_response, response_model.
    destruct (run w (add_guestbook isoformat payload) hist).1 as [entry | e]; [| done].
    destruct (model_validate GuestbookEntry entry) as [body' |] eqn:Hbody; [| done].
    intros [= <-] Hm. apply (Hentry entry m eq_refl).
    apply model_validate_Some in Hbody as (_ & _ & <- & _). exact Hm.
Qed.

(** C9. The substitution is idempotent. *)
Theorem sub_idempotent (s : str) :
  sub URL_REGEX link_removed (sub URL_REGEX link_removed s) =
  sub URL_REGEX link_removed s.
Proof.
  rewrite (sub_eq _ (sub URL_REGEX link_removed s)).
  assert (search URL_REGEX (sub URL_REGEX link_removed s) = None) as ->; [| done].
  apply search_None. intros s1 s2 Heq. apply no_match. by apply (sub_no_start s s1 s2).
Qed.

(** ** The substitution, URL by URL *)

Section Chunks.

Lemma is_url_starts u t : is_url u -> starts_url (u ++ t).
Proof.
  intros (sch & [| c body] & Hsch & Hne & Hbody & ->); [done |].
  apply Forall_cons in Hbody as [Hc _].
  exists sch, c, (body ++ t). by rewrite <- app_assoc.
Qed.

Lemma is_url_cons u : is_url u -> exists c t, u = c :: t /\ nonspace c.
Proof.
  intros Hu. pose proof (is_url_nonspace _ Hu) as Hns.
  destruct Hu as (sch & body & (c & sch' & -> & _)%is_scheme_cons & _ & _ & ->).
  apply Forall_cons in Hns as [Hc _]. by exists c, (sch' ++ body).
Qed.

Lemma is_url_snoc u c : is_url u -> nonspace c -> is_url (u ++ [c]).
Proof.
  intros (sch & body & Hsch & Hne & Hbody & ->) Hc.
  exists sch, (body ++ [c]). split; [done |]. split; [by destruct body |].
  split; [| by rewrite <- app_assoc].
  apply Forall_app. split; [done | by repeat constructor].
Qed.

Lemma maximal_boundary pre u post : maximal_url pre u post -> at_boundary post.
Proof.
  intros [Hu Hmax]. destruct post as [| c post]; [done |]. cbn.
  destruct (isspace c) eqn:Hc; [done |].
  destruct (Hmax pre [] [c] post) as [_ Habs]; [by rewrite app_nil_r | done | | done].
  by apply is_url_snoc.
Qed.

Lemma match_url_is_url m rest :
  match_here URL_REGEX m = Some rest ->
  exists u, m = u ++ rest /\ is_url u /\ at_boundary rest.
Proof.
  intros (sch & body & Hsch & Hne & Hbody & -> & Hb)%match_url.
  exists (sch ++ body). split; [by rewrite <- app_assoc |]. split; [| done].
  by exists sch, body.
Qed.

Lemma at_boundary_nonspace c t : at_boundary (c :: t) -> nonspace c -> False.
Proof. cbn. unfold nonspace. congruence. Qed.

Lemma source_Text g cs : source (Text g :: cs) = g ++ source cs.
Proof. reflexivity. Qed.

Lemma source_Url u cs : source (Url u :: cs) = u ++ source cs.
Proof. reflexivity. Qed.

Lemma render_Text repl g cs : render repl (Text g :: cs) = g ++ render repl cs.
Proof. reflexivity. Qed.

Lemma render_Url repl u cs : render repl (Url u :: cs) = repl ++ render repl cs.
Proof. reflexivity. Qed.

(** The URL the search finds is maximal in the whole text: [X] is what the
    loop has behind it, [g] what the search skipped. *)
Lemma found_url_maximal X g u0 rest :
  X = [] \/ at_boundary (g ++ u0 ++ rest) ->
  is_url u0 -> at_boundary rest ->
  (forall l a, g = l ++ a -> a <> [] -> ~ starts_url (a ++ u0 ++ rest)) ->
  maximal_url (X ++ g) u0 rest.
Proof.
  intros Hinv Hu0 Hb Hnogap. split; [done |].
  intros pre' a b post' Hpre Hpost Hurl.
  pose proof (is_url_nonspace _ Hurl) as Hns.
  apply Forall_app in Hns as [Ha Hns]. apply Forall_app in Hns as [_ Hb'].
  assert (b = []) as ->.
  { destruct b as [| y b]; [done |]. exfalso. subst rest.
    apply Forall_cons in Hb' as [Hy _]. by eapply at_boundary_nonspace. }
  split; [| done]. destruct a as [| x a]; [done |]. exfalso.
  cbn in Hpost. subst post'.
  assert (Hst : starts_url ((x :: a) ++ u0 ++ rest)).
  { apply (is_url_starts _ rest) in Hurl.
    by rewrite app_nil_r, <- app_assoc in Hurl. }
  apply app_eq_app in Hpre as [l [[HX Hxa] | [_ Hg]]].
  - destruct l as [| y l].
    + cbn in Hxa. subst g. by apply (Hnogap [] (x :: a)).
    + destruct Hinv as [-> | Hinv]; [by destruct pre' |].
      injection Hxa as -> ->.
      apply Forall_cons in Ha as [_ Ha]. apply Forall_app in Ha as [_ Hg].
      destruct g as [| z g].
      * destruct (is_url_cons _ Hu0) as (c0 & u0' & -> & Hc0).
        by eapply at_boundary_nonspace.
      * apply Forall_cons in Hg as [Hz _]. by eapply at_boundary_nonspace.
  - by apply (Hnogap l (x :: a)).
Qed.

(** The loop of [sub], started on [s] with [X] already behind it. *)
Lemma sub_chunks n : forall s X,
  length s = n ->
  X = [] \/ at_boundary s ->
  exists cs,
    source cs = s /\
    render link_removed cs = sub URL_REGEX link_removed s /\
    (forall cs1 u cs2,
       cs = cs1 ++ Url u :: cs2 -> maximal_url (X ++ source cs1) u (source cs2)) /\
    (forall pre u post,
       s = pre ++ u ++ post -> maximal_url (X ++ pre) u post ->
       exists cs1 cs2, cs = cs1 ++ Url u :: cs2 /\ source cs1 = pre /\ source cs2 = post).
Proof.
  induction n as [n IH] using lt_wf_ind. intros s X <- Hinv.
  rewrite sub_eq. destruct (search URL_REGEX s) as [[g rest] |] eqn:Hs.
  - pose proof (search_url_shorter _ _ _ Hs) as Hlen.
    apply search_Some in Hs as (m & -> & Hmatch & Hgap).
    destruct (match_url_is_url _ _ Hmatch) as (u0 & -> & Hu0 & Hb).
    destruct (IH _ Hlen rest (X ++ g ++ u0) eq_refl (or_intror Hb))
      as (cs' & Hsrc & Hrender & Hsound & Hcomplete).
    assert (Hnogap : forall l a, g = l ++ a -> a <> [] -> ~ starts_url (a ++ u0 ++ rest)).
    { intros l a Hg Ha Hst. apply no_match in Hst; [done |]. by apply (Hgap l). }
    exists (Text g :: Url u0 :: cs'). split; [| split; [| split]].
    + by rewrite source_Text, source_Url, Hsrc.
    + by rewrite render_Text, render_Url, Hrender.
    + intros cs1 u cs2 Hcs. destruct cs1 as [| c1 [| c2 cs1]]; [done | |].
      * injection Hcs as <- <- <-. rewrite source_Text, Hsrc.
        change (source []) with (@nil N). rewrite app_nil_r.
        by apply found_url_maximal.
      * injection Hcs as <- <- ->. rewrite source_Text, source_Url.
        specialize (Hsound cs1 u cs2 eq_refl).
        by rewrite <- !app_assoc in Hsound.
    + intros pre u post Heq Hmax.
      pose proof (maximal_boundary _ _ _ Hmax) as Hpost.
      pose proof (proj1 Hmax) as Hu.
      pose proof (is_url_starts _ post Hu) as Hst.
      assert (Hhere : pre = g -> u ++ post = u0 ++ rest -> exists cs1 cs2,
                 Text g :: Url u0 :: cs' = cs1 ++ Url u :: cs2 /\
                 source cs1 = pre /\ source cs2 = post).
      { intros -> Huu.
        destruct (run_unique u u0 post rest) as [-> ->];
          [by apply is_url_nonspace | by apply is_url_nonspace | done | done | done |].
        exists [Text g], cs'. split; [done |]. split; [| done].
        rewrite source_Text. apply app_nil_r. }
      symmetry in Heq. apply app_eq_app in Heq as [l [[Hpre Hl] | [Hg Hl]]].
      * destruct l as [| x l].
        { apply Hhere; [by rewrite app_nil_r in Hpre | done]. }
        apply app_eq_app in Hl as [l2 [[Hu0l Hl2] | [Hxl Hrest]]].
        -- exfalso.
           destruct (run_unique u l2 post rest) as [<- <-]; try done.
           { by apply is_url_nonspace. }
           { apply is_url_nonspace in Hu0. rewrite Hu0l in Hu0.
             by apply Forall_app in Hu0 as [_ ?]. }
           destruct Hmax as [_ Hmax].
           destruct (Hmax (X ++ g) (x :: l) [] post) as [Habs _]; try done.
           ++ by rewrite Hpre, app_assoc.
           ++ by rewrite app_nil_r, <- Hu0l.
        -- destruct (Hcomplete l2 u post Hrest) as (cs1 & cs2 & -> & <- & <-).
           { rewrite Hpre, Hxl in Hmax. by rewrite <- !app_assoc. }
           exists (Text g :: Url u0 :: cs1), cs2. split; [done |]. split; [| done].
           by rewrite source_Text, source_Url, Hpre, Hxl.
      * destruct l as [| x l].
        { apply Hhere; [by rewrite app_nil_r in Hg | done]. }
        exfalso. rewrite Hl in Hst. by apply (Hnogap pre (x :: l)).
  - exists [Text s]. split; [| split; [| split]].
    + rewrite source_Text. apply app_nil_r.
    + rewrite render_Text. apply app_nil_r.
    + intros cs1 u cs2 Hcs. by destruct cs1 as [| c1 [| c2 cs1]].
    + intros pre u post -> [Hu _]. exfalso.
      apply (is_url_starts _ post) in Hu. apply no_match in Hu; [done |].
      by apply (proj1 (search_None _ _) Hs pre).
Qed.

End Chunks.

(** The outcome of the substitution is the message with every URL replaced,
    in the words of the specification. *)
Lemma sub_sanitized (s : str) : sanitized s (sub URL_REGEX link_removed s).
Proof.
  destruct (sub_chunks (length s) s []) as (cs & Hsrc & Hrender & Hsound & Hcomplete);
    [done | by left |].
  exists cs. split; [done |]. split; [exact Hrender |]. split; [exact Hsound | exact Hcomplete].
Qed.

(** C1. The substitution replaces the maximal URLs of the message, each by
    one [[link removed]], and leaves the rest as it is: the message is cut,
    left to right, into pieces that do not overlap, the outcome is the same
    pieces with every piece marked as a URL replaced, every marked piece is
    a maximal URL of the message where it stands, and every maximal URL of
    the message is one of the marked pieces.  The scheme is found in any
    case: "HTTP://EVIL.EXAMPLE/X" is a URL and is replaced.  On the message
    of the specification the outcome is
    "check this out [link removed] and [link removed]", and it is the
    message of the response of [add_guestbook]. *)
Theorem sub_replaces_each_url :
  (forall s : str, sanitized s (sub URL_REGEX link_removed s)) /\
  is_url (of_ascii "HTTP://EVIL.EXAMPLE/X") /\
  sub URL_REGEX link_removed (of_ascii "see HTTP://EVIL.EXAMPLE/X and hTtPs://y.com now") =
    of_ascii "see [link removed] and [link removed] now" /\
  sub URL_REGEX link_removed
    (of_ascii "check this out https://evil.example/x and http://y.com") =
    of_ascii "check this out [link removed] and [link removed]" /\
  (forall isoformat, exists body,
     add_guestbook_response
       (run sample_world
          (add_guestbook isoformat
             {| name := of_ascii "Ann";
                message := of_ascii "check this out https://evil.example/x and http://y.com" |})
          []).1 = Returned body /\
     body !! "message" =
       Some (VStr (of_ascii "check this out [link removed] and [link removed]"))).
Proof.
  split; [| split; [| split; [| split]]].
  - apply sub_sanitized.
  - exists (of_ascii "HTTP://"), (of_ascii "EVIL.EXAMPLE/X").
    split; [| split; [done | split; [| by vm_compute]]].
    + left. repeat (constructor; [by vm_compute |]). constructor.
    + repeat (constructor; [by vm_compute |]). constructor.
  - vm_compute. reflexivity.
  - vm_compute. reflexivity.
  - intros isoformat. eexists. split; vm_compute; reflexivity.
Qed.

(** The substitution on a few more messages: any case of the scheme, a
    scheme with nothing after it, a URL in the middle of a word. *)
Example sub_upper_case :
  sub URL_REGEX link_removed (of_ascii "see HtTpS://A.b/c now") =
  of_ascii "see [link removed] now".
Proof. vm_compute. reflexivity. Qed.

Example sub_bare_scheme :
  sub URL_REGEX link_removed (of_ascii "http:// and https://") =
  of_ascii "http:// and https://".
Proof. vm_compute. reflexivity. Qed.

Example sub_inside_word :
  sub URL_REGEX link_removed (of_ascii "xhttp://a.b,http://c.d e") =
  of_ascii "x[link removed] e".
Proof. vm_compute. reflexivity. Qed.

(** Under [re.IGNORECASE] the [s] of the pattern also accepts U+017F. *)
Example sub_long_s :
  sub URL_REGEX link_removed (of_ascii "http" ++ [0x17F] ++ of_ascii "://x") =
  of_ascii "[link removed]".
Proof. vm_compute. reflexivity. Qed.

(* ===================================================================== *)
(** ** Further properties of the handlers *)
(* ===================================================================== *)

(** *** Trimming *)

Lemma drop_while_split {A} (f : A -> bool) (l : list A) :
  exists pre, l = pre ++ drop_while f l /\ Forall (fun x => f x = true) pre.
Proof.
  induction l as [| x l (pre & Hl & Hpre)]; cbn.
  - by exists [].
  - destruct (f x) eqn:Hx.
    + exists (x :: pre). split; [by rewrite Hl at 1 | by constructor].
    + by exists [].
Qed.

Lemma drop_while_head {A} (f : A -> bool) (l : list A) c r :
  drop_while f l = c :: r -> f c = false.
Proof.
  induction l as [| x l IH]; cbn; [done |].
  destruct (f x) eqn:Hx; [done |]. by intros [= <- _].
Qed.

Lemma drop_while_id {A} (f : A -> bool) (l : list A) :
  (forall c r, l = c :: r -> f c = false) -> drop_while f l = l.
Proof.
  destruct l as [| x l]; [done |]. intros H. cbn. by rewrite (H x l).
Qed.

(** What [strip] returns: the string without a run of whitespace at each
    end, and with no whitespace left at either end. *)
Lemma strip_spec (s : str) :
  exists pre post,
    s = pre ++ strip s ++ post /\
    Forall (fun c => isspace c = true) pre /\
    Forall (fun c => isspace c = true) post /\
    trimmed (strip s).
Proof.
  unfold strip, rstrip, lstrip.
  destruct (drop_while_split isspace s) as (pre & Hs & Hpre).
  destruct (drop_while_split isspace (reverse (drop_while isspace s)))
    as (post & Ht & Hpost).
  apply (f_equal reverse) in Ht. rewrite reverse_involutive, reverse_app in Ht.
  exists pre, (reverse post). split; [| split; [| split; [| split]]].
  - by rewrite <- Ht.
  - done.
  - by apply Forall_reverse.
  - intros c r Hc. rewrite Hc in Ht. rewrite Ht in Hs.
    by apply (drop_while_head isspace s c (r ++ reverse post)).
  - intros r c Hc. apply (f_equal reverse) in Hc.
    rewrite reverse_involutive, reverse_snoc in Hc.
    by eapply drop_while_head.
Qed.

Lemma strip_trimmed (s : str) : trimmed s -> strip s = s.
Proof.
  intros [Hhead Hlast]. unfold strip, rstrip, lstrip.
  rewrite (drop_while_id isspace s Hhead).
  rewrite drop_while_id; [apply reverse_involutive |].
  intros c r Hc. apply (f_equal reverse) in Hc.
  rewrite reverse_involutive, reverse_cons in Hc. by eapply Hlast.
Qed.

Lemma strip_idemp (s : str) : strip (strip s) = strip s.
Proof.
  apply strip_trimmed. by destruct (strip_spec s) as (_ & _ & _ & _ & _ & ?).
Qed.

Lemma length_strip (s : str) : (length (strip s) <= length s)%nat.
Proof.
  destruct (strip_spec s) as (pre & post & Hs & _).
  rewrite Hs at 2. rewrite !length_app. lia.
Qed.

(** *** The substitution again *)

Lemma sub_nil : sub URL_REGEX link_removed [] = [].
Proof. reflexivity. Qed.

Lemma link_removed_snoc : link_removed = of_ascii "[link removed" ++ [0x5D].
Proof. reflexivity. Qed.

Lemma sub_nil_inv s : sub URL_REGEX link_removed s = [] -> s = [].
Proof.
  rewrite sub_eq. destruct (search URL_REGEX s) as [[g rest] |]; [| done].
  intros H. apply app_eq_nil in H as [_ H]. by apply app_eq_nil in H as [H _].
Qed.

(** A text in which no URL begins is left as it is. *)
Lemma sub_fixed s :
  (forall t1 t2, s = t1 ++ t2 -> ~ starts_url t2) ->
  sub URL_REGEX link_removed s = s.
Proof.
  intros H. rewrite sub_eq.
  assert (search URL_REGEX s = None) as ->; [| done].
  apply search_None. intros s1 s2 Hs. apply no_match. by apply (H s1).
Qed.

Lemma sub_head s c r :
  (forall c r, s = c :: r -> isspace c = false) ->
  sub URL_REGEX link_removed s = c :: r -> isspace c = false.
Proof.
  intros Hs. rewrite sub_eq.
  destruct (search URL_REGEX s) as [[g rest] |] eqn:Hsearch; [| by apply Hs].
  apply search_Some in Hsearch as (m & -> & _).
  destruct g as [| x g].
  - change ([] ++ link_removed ++ sub URL_REGEX link_removed rest)
      with (0x5B :: (of_ascii "link removed]" ++ sub URL_REGEX link_removed rest)).
    by intros [= <- _].
  - intros [= <- _]. by apply (Hs x (g ++ m)).
Qed.

Lemma sub_last s :
  (forall r c, s = r ++ [c] -> isspace c = false) ->
  forall r c, sub URL_REGEX link_removed s = r ++ [c] -> isspace c = false.
Proof.
  remember (length s) as n eqn:Hn. revert s Hn.
  induction n as [n IH] using lt_wf_ind. intros s -> Hs r c.
  rewrite sub_eq.
  destruct (search URL_REGEX s) as [[g rest] |] eqn:Hsearch; [| by apply Hs].
  pose proof (search_url_shorter _ _ _ Hsearch) as Hlen.
  apply search_Some in Hsearch as (m & -> & Hmatch & _).
  apply match_url_is_url in Hmatch as (u & -> & _ & _).
  destruct (sub URL_REGEX link_removed rest) as [| y out] eqn:Hout.
  - rewrite app_nil_r, link_removed_snoc, app_assoc.
    by intros [_ <-]%app_inj_tail.
  - assert (out' : exists r' c', y :: out = r' ++ [c']).
    { destruct (y :: out) as [| z l _] eqn:Hl using rev_ind; [done | eauto]. }
    destruct out' as (r' & c' & Hr'). rewrite Hr', !app_assoc.
    intros [_ <-]%app_inj_tail.
    apply (IH _ Hlen rest eq_refl) with (r := r').
    + intros r0 c0 ->. apply (Hs (g ++ u ++ r0) c0). by rewrite <- !app_assoc.
    + by rewrite Hout.
Qed.

(** The substitution keeps a text free of whitespace at both ends. *)
Lemma sub_trimmed s : trimmed s -> trimmed (sub URL_REGEX link_removed s).
Proof.
  intros [Hhead Hlast]. split.
  - intros c r. by apply sub_head.
  - by apply sub_last.
Qed.

Lemma is_scheme_length sch : is_scheme sch -> (7 <= length sch)%nat.
Proof.
  intros [H | H]; apply Forall2_length in H; rewrite <- H; cbn; lia.
Qed.

(** Each URL has eight characters or more and becomes fourteen. *)
Lemma sub_length s :
  (4 * length (sub URL_REGEX link_removed s) <= 7 * length s)%nat.
Proof.
  remember (length s) as n eqn:Hn. revert s Hn.
  induction n as [n IH] using lt_wf_ind. intros s ->.
  rewrite sub_eq.
  destruct (search URL_REGEX s) as [[g rest] |] eqn:Hsearch; [| lia].
  pose proof (search_url_shorter _ _ _ Hsearch) as Hlen.
  specialize (IH _ Hlen rest eq_refl).
  apply search_Some in Hsearch as (m & -> & Hmatch & _).
  apply match_url in Hmatch as (sch & body & Hsch & Hne & _ & -> & _).
  apply is_scheme_length in Hsch.
  assert (1 <= length body)%nat by (destruct body; [done | cbn; lia]).
  rewrite !length_app. change (length link_removed) with 14%nat. lia.
Qed.

Lemma search_found p g m rest :
  match_here p m = Some rest ->
  (forall g1 g2, g = g1 ++ g2 -> g2 <> [] -> match_here p (g2 ++ m) = None) ->
  search p (g ++ m) = Some (g, rest).
Proof.
  intros Hm. induction g as [| x g IH]; intros Hgap; rewrite search_eq.
  - cbn. by rewrite Hm.
  - rewrite (Hgap [] (x :: g)) by done. cbn.
    rewrite IH; [done |]. intros g1 g2 -> Hne. by apply (Hgap (x :: g1)).
Qed.

Lemma search_skip p a b :
  (forall a1 a2, a = a1 ++ a2 -> a2 <> [] -> match_here p (a2 ++ b) = None) ->
  search p (a ++ b) =
  match search p b with
  | Some (g, rest) => Some (a ++ g, rest)
  | None => None
  end.
Proof.
  induction a as [| x a IH]; intros Hgap.
  - cbn. by destruct (search p b) as [[g rest] |].
  - rewrite search_eq, (Hgap [] (x :: a)) by done. cbn.
    rewrite IH; [by destruct (search p b) as [[g rest] |] |].
    intros a1 a2 -> Hne. by apply (Hgap (x :: a1)).
Qed.

Lemma scheme_char_nonspace c : scheme_char c = true -> isspace c = false.
Proof.
  unfold scheme_char. rewrite existsb_exists.
  intros (x & Hx & ->%N.eqb_eq). cbn in Hx.
  repeat (destruct Hx as [<- | Hx]; [done |]). done.
Qed.

(** No URL runs across a whitespace. *)
Lemma starts_url_space a c t :
  isspace c = true -> starts_url (a ++ c :: t) -> starts_url a.
Proof.
  intros Hc [Ha | [(_ & c' & t' & [= <- _] & Hc') | (c' & t' & [= <- _] & Hc')]]%starts_url_split.
  - done.
  - unfold nonspace in Hc'. congruence.
  - apply scheme_char_nonspace in Hc'. congruence.
Qed.

Lemma not_starts_url_nil : ~ starts_url [].
Proof. intros (sch & c & t & _ & _ & H). by destruct sch. Qed.

(** The substitution works on each side of a whitespace on its own. *)
Lemma sub_space a c b :
  isspace c = true ->
  sub URL_REGEX link_removed (a ++ c :: b) =
  sub URL_REGEX link_removed a ++ c :: sub URL_REGEX link_removed b.
Proof.
  intros Hc. remember (length a) as n eqn:Hn. revert a Hn.
  induction n as [n IH] using lt_wf_ind. intros a ->.
  rewrite (sub_eq _ a).
  destruct (search URL_REGEX a) as [[g rest] |] eqn:Hsearch.
  - pose proof (search_url_shorter _ _ _ Hsearch) as Hlen.
    apply search_Some in Hsearch as (m & -> & Hmatch & Hgap).
    assert (Hm' : match_here URL_REGEX (m ++ c :: b) = Some (rest ++ c :: b)).
    { apply match_url in Hmatch as (sch & body & Hsch & Hne & Hbody & -> & Hb).
      apply match_url. exists sch, body. repeat split; try done.
      - by rewrite <- !app_assoc.
      - by destruct rest. }
    rewrite <- app_assoc, sub_eq, (search_found _ g _ _ Hm').
    + rewrite (IH _ Hlen rest eq_refl). by rewrite <- !app_assoc.
    + intros g1 g2 Hg Hne. apply no_match. rewrite app_assoc.
      intros Hst%starts_url_space; [| done].
      apply no_match in Hst; [done |]. by apply (Hgap g1).
  - assert (Hcb : match_here URL_REGEX (c :: b) = None).
    { apply no_match. intros Hst. apply (starts_url_space [] c b Hc) in Hst.
      by apply not_starts_url_nil. }
    rewrite sub_eq, search_skip.
    + rewrite search_eq, Hcb. rewrite (sub_eq _ b).
      destruct (search URL_REGEX b) as [[g rest] |]; [| done].
      by rewrite <- app_assoc.
    + intros a1 a2 -> Hne. apply no_match.
      intros Hst%starts_url_space; [| done].
      apply no_match in Hst; [done |]. by apply (proj1 (search_None _ _) Hsearch a1).
Qed.

(** X1. Trimming in [add_guestbook] removes whitespace at the two ends of
    the name and of the message and nothing else: each is a run of
    whitespace, the trimmed text, a run of whitespace, and the trimmed text
    neither begins nor ends with whitespace. *)
Theorem add_guestbook_trims_only_whitespace (payload : GuestbookCreate) :
  (exists pre post,
     name payload = pre ++ strip (name payload) ++ post /\
     Forall (fun c => isspace c = true) pre /\
     Forall (fun c => isspace c = true) post /\
     trimmed (strip (name payload))) /\
  (exists pre post,
     message payload = pre ++ strip (message payload) ++ post /\
     Forall (fun c => isspace c = true) pre /\
     Forall (fun c => isspace c = true) post /\
     trimmed (strip (message payload))).
Proof. split; apply strip_spec. Qed.

(** X2. The substitution changes a text exactly when the text contains a
    URL, the scheme being in any case: "see HTTP://EVIL.COM/x now" contains
    one and is changed. *)
Theorem sub_unchanged_iff_no_url :
  (forall s : str, sub URL_REGEX link_removed s = s <-> ~ contains_url s) /\
  contains_url (of_ascii "see HTTP://EVIL.COM/x now") /\
  sub URL_REGEX link_removed (of_ascii "see HTTP://EVIL.COM/x now") =
    of_ascii "see [link removed] now".
Proof.
  split; [| split].
  - intros s. split.
    + intros Heq (pre & post & Hs & Hst)%contains_url_starts.
      apply (sub_no_start s pre post); [congruence | done].
    + intros Hno. apply sub_fixed. intros t1 t2 Hs Hst.
      apply Hno, contains_url_starts. eauto.
  - url_instance (of_ascii "see ") (of_ascii "HTTP://") (of_ascii "EVIL.COM/x")
      (of_ascii " now").
  - vm_compute. reflexivity.
Qed.

(** X3. The substitution works word by word: on a text cut at a whitespace
    it is the substitution on the part before, the whitespace, and the
    substitution on the part after. *)
Theorem sub_word_by_word (a b : str) (c : N) :
  isspace c = true ->
  sub URL_REGEX link_removed (a ++ c :: b) =
  sub URL_REGEX link_removed a ++ c :: sub URL_REGEX link_removed b.
Proof. apply sub_space. Qed.

Lemma sub_word_by_word_witness :
  sub URL_REGEX link_removed (of_ascii "see http://a.b" ++ 0x20 :: of_ascii "https://c now") =
  sub URL_REGEX link_removed (of_ascii "see http://a.b") ++
  0x20 :: sub URL_REGEX link_removed (of_ascii "https://c now").
Proof.
  apply (sub_word_by_word (of_ascii "see http://a.b") (of_ascii "https://c now") 0x20).
  reflexivity.
Defined.

(** X4. The stored message of a payload within the length bounds has at
    most 875 characters (a URL of eight characters becomes fourteen), and
    it can have more than the 500 of the bound on the payload. *)
Theorem stored_message_length (payload : GuestbookCreate) :
  GuestbookCreate_valid payload ->
  (length (sub URL_REGEX link_removed (strip (message payload))) <= 875)%nat /\
  exists longer,
    GuestbookCreate_valid longer /\
    (500 < length (sub URL_REGEX link_removed (strip (message longer))))%nat.
Proof.
  intros [_ Hm]. split.
  - pose proof (sub_length (strip (message payload))).
    pose proof (length_strip (message payload)). lia.
  - exists {| name := of_ascii "Ann"; message := message_of_urls |}. split.
    + split; vm_compute; lia.
    + vm_compute. lia.
Qed.

Lemma stored_message_length_witness :
  (length (sub URL_REGEX link_removed
             (strip (message {| name := of_ascii "Ann"; message := message_of_urls |})))
   <= 875)%nat /\
  exists longer,
    GuestbookCreate_valid longer /\
    (500 < length (sub URL_REGEX link_removed (strip (message longer))))%nat.
Proof.
  apply (stored_message_length {| name := of_ascii "Ann"; message := message_of_urls |}).
  split; vm_compute; lia.
Defined.

(** X5. Whatever [add_guestbook] hands to [create_document] has a name and
    a message that are not empty and neither begin nor end with
    whitespace. *)
Theorem stored_fields_never_blank
    (isoformat : N -> datetime -> str) (w : world) (hist : list event)
    (payload : GuestbookCreate) :
  exists evs,
    (run w (add_guestbook isoformat payload) hist).2 = hist ++ evs /\
    forall c d a,
      In (ECreate_document c d a) evs ->
      exists n m,
        d !! "name" = Some (VStr n) /\ d !! "message" = Some (VStr m) /\
        n <> [] /\ m <> [] /\ trimmed n /\ trimmed m.
Proof.
  destruct (strip (name payload)) as [| c0 n0] eqn:Hn;
    [| destruct (strip (message payload)) as [| c1 m1] eqn:Hm].
  - rewrite (add_guestbook_blank isoformat payload) by (by left).
    exists []. cbn. split; [by rewrite app_nil_r | done].
  - rewrite (add_guestbook_blank isoformat payload) by (by right).
    exists []. cbn. split; [by rewrite app_nil_r | done].
  - rewrite (add_guestbook_filled isoformat w payload hist) by congruence.
    cbv zeta.
    assert (Hdata : exists n m,
               guestbook_data payload !! "name" = Some (VStr n) /\
               guestbook_data payload !! "message" = Some (VStr m) /\
               n <> [] /\ m <> [] /\ trimmed n /\ trimmed m).
    { exists (strip (name payload)), (sub URL_REGEX link_removed (strip (message payload))).
      split; [done |]. split; [done |].
      destruct (strip_spec (name payload)) as (_ & _ & _ & _ & _ & Htn).
      destruct (strip_spec (message payload)) as (_ & _ & _ & _ & _ & Htm).
      split; [congruence |]. split; [| split; [done | by apply sub_trimmed]].
      intros Hnil%sub_nil_inv. congruence. }
    destruct (create_document w hist "guestbook" (guestbook_data payload)) as [e | id].
    + eexists [_]. cbn. split; [done |].
      intros c d a [[= <- <- <-] | []]. apply Hdata.
    + eexists [_; _; _]. cbn. split; [by rewrite <- !app_assoc |].
      intros c d a [[= <- <- <-] | [[=] | [[=] | []]]]. apply Hdata.
Qed.

(** X6. Posting the stored name and message again stores the same name and
    message: trimming and the substitution change nothing the second
    time. *)
Theorem stored_record_is_normal (payload : GuestbookCreate) :
  guestbook_data
    {| name := strip (name payload);
       message := sub URL_REGEX link_removed (strip (message payload)) |} =
  guestbook_data payload.
Proof.
  unfold guestbook_data. cbn [name message].
  destruct (strip_spec (message payload)) as (_ & _ & _ & _ & _ & Htm).
  rewrite strip_idemp, (strip_trimmed _ (sub_trimmed _ Htm)).
  rewrite (sub_fixed (sub URL_REGEX link_removed (strip (message payload)))); [done |].
  intros t1 t2. apply sub_no_start.
Qed.

(** X7. [add_guestbook] answers 400 exactly when the name or the message is
    empty once trimmed, and calls [create_document] once otherwise and
    never twice. *)
Theorem add_guestbook_outcomes
    (isoformat : N -> datetime -> str) (w : world) (hist : list event)
    (payload : GuestbookCreate) :
  ((exists e, (run w (add_guestbook isoformat payload) hist).1 = Raised e /\
              status_code e = 400%Z) <->
   (strip (name payload) = [] \/ strip (message payload) = [])) /\
  exists evs,
    (run w (add_guestbook isoformat payload) hist).2 = hist ++ evs /\
    length (List.filter is_create evs) =
      if truthy (strip (name payload)) && truthy (strip (message payload))
      then 1%nat else 0%nat.
Proof.
  destruct (strip (name payload)) as [| c0 n0] eqn:Hn;
    [| destruct (strip (message payload)) as [| c1 m1] eqn:Hm].
  - rewrite (add_guestbook_blank isoformat payload) by (by left). cbn. split.
    + split; [by left | eauto].
    + exists []. by rewrite app_nil_r.
  - rewrite (add_guestbook_blank isoformat payload) by (by right). cbn. split.
    + split; [by right | eauto].
    + exists []. by rewrite app_nil_r.
  - rewrite (add_guestbook_filled isoformat w payload hist) by congruence.
    cbv zeta.
    destruct (create_document w hist "guestbook" (guestbook_data payload)) as [e | id];
      cbn; (split; [split |]).
    + intros (e' & [= <-] & He'). done.
    + intros [? | ?]; done.
    + by eexists [_].
    + intros (e' & [=] & _).
    + intros [? | ?]; done.
    + eexists [_; _; _]. split; [by rewrite <- !app_assoc | done].
Qed.

(** *** The order of the listing *)

Section SortMore.
Context {A : Type} (key : A -> value).

Local Abbreviation same_ticks t := (fun x : A => ticks (key x) = t).

Lemma insert_by_filter t x l r :
  datetime_key key x -> Forall (datetime_key key) l ->
  insert_by key x l = inr r ->
  filter (same_ticks t) r = filter (same_ticks t) (x :: l).
Proof.
  intros [tx Hx] Hl. revert r. induction l as [| y l IH]; intros r Hr; cbn in Hr.
  - by injection Hr as <-.
  - apply Forall_cons in Hl as [[ty Hy] Hl]. rewrite Hy, Hx in Hr. cbn in Hr.
    destruct (ty <? tx) eqn:Hlt; [| by injection Hr as <-].
    destruct (insert_by key x l) as [e | r'] eqn:Hins; cbn in Hr; [done |].
    injection Hr as <-. apply N.ltb_lt in Hlt.
    rewrite (filter_cons _ y r'), (IH Hl r' eq_refl).
    rewrite !(filter_cons _ x), !(filter_cons _ y).
    repeat case_decide; try done.
    rewrite Hx, Hy in *. cbn in *. lia.
Qed.

Lemma sort_by_filter t l s :
  Forall (datetime_key key) l -> sort_by key l = inr s ->
  filter (same_ticks t) s = filter (same_ticks t) l.
Proof.
  revert s. induction l as [| x l IH]; intros s Hl; cbn.
  - by intros [= <-].
  - apply Forall_cons in Hl as [Hx Hl].
    destruct (sort_by key l) as [e | s'] eqn:Hs; cbn; [done |].
    intros Hins. rewrite (insert_by_filter t x s' s Hx); [| | done].
    + by rewrite !(filter_cons _ x), (IH s' Hl eq_refl).
    + apply sort_by_Permutation in Hs. by rewrite <- Hs.
Qed.

(** The sort keeps the elements of equal key in the order they had. *)
Lemma list_sort_filter t reversed l s :
  Forall (datetime_key key) l -> list_sort key reversed l = inr s ->
  filter (same_ticks t) s = filter (same_ticks t) l.
Proof.
  intros Hl. unfold list_sort. destruct reversed; [| by apply sort_by_filter].
  destruct (sort_by key (reverse l)) as [e | s'] eqn:Hs; cbn; [done |].
  intros [= <-]. rewrite filter_reverse.
  rewrite (sort_by_filter t (reverse l) s'); [| by apply Forall_reverse | done].
  by rewrite filter_reverse, reverse_involutive.
Qed.

(** A key that is [None] is compared with another key as soon as there
    are two elements, and the comparison raises. *)
Lemma py_lt_None_l v : exists e, py_lt VNone v = inl e.
Proof. by eexists. Qed.

Lemma py_lt_None_r v : exists e, py_lt v VNone = inl e.
Proof. destruct v; by eexists. Qed.

Lemma sort_by_None l :
  (2 <= length l)%nat -> (exists x, x ∈ l /\ key x = VNone) ->
  exists e, sort_by key l = inl e.
Proof.
  induction l as [| x l IH]; cbn; [lia |]. intros Hlen (z & Hz & Hkz).
  destruct (sort_by key l) as [e | s] eqn:Hs; cbn; [by eexists |].
  pose proof (sort_by_Permutation key _ _ Hs) as Hperm.
  destruct s as [| y s].
  { apply Permutation_length in Hperm. cbn in Hperm. lia. }
  cbn. apply elem_of_cons in Hz as [-> | Hz].
  - rewrite Hkz. destruct (py_lt_None_r (key y)) as [e ->]. by eexists.
  - destruct l as [| z1 [| z2 l]].
    + by apply elem_of_nil in Hz.
    + apply list_elem_of_singleton in Hz as ->.
      cbn in Hs. injection Hs as <- <-.
      rewrite Hkz. by eexists.
    + destruct IH as [e He]; [cbn; lia | eauto |]. congruence.
Qed.

Lemma list_sort_None l :
  (2 <= length l)%nat -> (exists x, x ∈ l /\ key x = VNone) ->
  exists e, list_sort key true l = inl e.
Proof.
  intros Hlen (z & Hz & Hkz). unfold list_sort.
  destruct (sort_by_None (reverse l)) as [e ->]; [| | by eexists].
  - by rewrite length_reverse.
  - exists z. by rewrite elem_of_reverse.
Qed.

Lemma list_sort_short l :
  (length l <= 1)%nat -> list_sort key true l = inr l.
Proof.
  destruct l as [| x [| y l]]; cbn; [done | done | lia].
Qed.

End SortMore.

Lemma filter_map_comm {A B} (f : A -> B) (P : B -> Prop)
    `{!forall y, Decision (P y)} (l : list A) :
  filter P (map f l) = map f (filter (fun x => P (f x)) l).
Proof.
  induction l as [| x l IH]; [done |]. cbn [map].
  rewrite !filter_cons. case_decide; cbn [map]; by rewrite IH.
Qed.

(** X8. [list_guestbook] makes one call, [get_documents] on collection
    "guestbook" with an empty filter and the limit it was given, whatever
    the answer; it does not cut the list itself: a response has as many
    entries as [get_documents] returned. *)
Theorem list_guestbook_reads_once
    (isoformat : N -> datetime -> str) (w : world) (hist : list event) (limit : Z) :
  (run w (list_guestbook isoformat limit) hist).2 =
    hist ++ [EGet_documents "guestbook" ∅ limit (get_documents w hist "guestbook" ∅ limit)] /\
  forall docs entries,
    get_documents w hist "guestbook" ∅ limit = inr docs ->
    (run w (list_guestbook isoformat limit) hist).1 = Returned entries ->
    length entries = length (refs docs).
Proof.
  split.
  - unfold list_guestbook. cbn [run].
    destruct (get_documents w hist "guestbook" ∅ limit) as [e | docs]; [done |].
    by destruct (list_sort _ true (refs docs)).
  - intros docs entries Hget. rewrite (run_list_guestbook isoformat _ _ _ _ Hget).
    destruct (list_sort _ true (refs docs)) as [e | sorted] eqn:Hsort; [done |].
    intros [= <-]. apply list_sort_Permutation, Permutation_length in Hsort.
    by rewrite length_map.
Qed.

(** X9. Entries with the same timestamp keep the order in which
    [get_documents] returned them. *)
Theorem list_guestbook_stable
    (isoformat : N -> datetime -> str) (w : world) (hist : list event)
    (limit : Z) (docs : documents) (t : datetime) :
  get_documents w hist "guestbook" ∅ limit = inr docs ->
  Forall (fun r => timestamped (deref (objects docs) r)) (refs docs) ->
  exists entries,
    (run w (list_guestbook isoformat limit) hist).1 = Returned entries /\
    filter (fun e => timestamp e = t) entries =
    map (fun r => text_id isoformat (deref (objects docs) r))
      (filter (fun r => timestamp (deref (objects docs) r) = t) (refs docs)).
Proof.
  intros Hget Htyped. rewrite (run_list_guestbook isoformat _ _ _ _ Hget).
  destruct (list_sort_reversed_sorted
              (fun r => created_at_key (deref (objects docs) r)) (refs docs)
              (timestamped_keys _ _ Htyped))
    as (sorted & Hsort & _).
  rewrite Hsort. eexists. split; [done |].
  rewrite filter_map_comm. f_equal.
  transitivity (filter (fun r => ticks (created_at_key (deref (objects docs) r)) = t) sorted).
  - apply list_filter_iff. intros r. by rewrite timestamp_text_id, timestamp_key.
  - rewrite (list_sort_filter (fun r => created_at_key (deref (objects docs) r))
               t true (refs docs) sorted (timestamped_keys _ _ Htyped) Hsort).
    apply list_filter_iff. intros r. by rewrite timestamp_key.
Qed.

Lemma list_guestbook_stable_witness :
  exists entries,
    (run (world_with_documents two_documents) (list_guestbook (fun _ _ => []) 50) []).1 =
      Returned entries /\
    filter (fun e => timestamp e = 7) entries =
    map (fun r => text_id (fun _ _ => []) (deref (objects two_documents) r))
      (filter (fun r => timestamp (deref (objects two_documents) r) = 7)
         (refs two_documents)).
Proof.
  apply (list_guestbook_stable (fun _ _ => []) (world_with_documents two_documents) []
           50%Z two_documents 7).
  - reflexivity.
  - repeat (constructor; [by vm_compute |]). constructor.
Defined.

(** X10. A [created_at] that is [None] is not covered by the default of
    [d.get]: with two documents or more, one of them with a null
    [created_at], the sort raises and [list_guestbook] answers 500. *)
Theorem list_guestbook_null_created_at
    (isoformat : N -> datetime -> str) (w : world) (hist : list event)
    (limit : Z) (docs : documents) (r : nat) :
  get_documents w hist "guestbook" ∅ limit = inr docs ->
  (2 <= length (refs docs))%nat ->
  r ∈ refs docs ->
  deref (objects docs) r !! "created_at" = Some VNone ->
  exists e,
    (run w (list_guestbook isoformat limit) hist).1 = Raised e /\
    status_code e = 500%Z.
Proof.
  intros Hget Hlen Hr Hnull. rewrite (run_list_guestbook isoformat _ _ _ _ Hget).
  destruct (list_sort_None (fun r => created_at_key (deref (objects docs) r)) (refs docs))
    as [e ->]; [done | | by eexists].
  exists r. split; [done |]. unfold created_at_key. by rewrite Hnull.
Qed.

Lemma list_guestbook_null_created_at_witness :
  exists e,
    (run (world_with_documents null_documents) (list_guestbook (fun _ _ => []) 50) []).1 =
      Raised e /\
    status_code e = 500%Z.
Proof.
  apply (list_guestbook_null_created_at (fun _ _ => []) (world_with_documents null_documents)
           [] 50%Z null_documents 1%nat).
  - reflexivity.
  - cbn. lia.
  - cbn. apply list_elem_of_further, list_elem_of_here.
  - reflexivity.
Defined.

(** X11. A list of at most one document is returned whatever its
    [created_at] is: nothing is compared. *)
Theorem list_guestbook_short_list
    (isoformat : N -> datetime -> str) (w : world) (hist : list event)
    (limit : Z) (docs : documents) :
  get_documents w hist "guestbook" ∅ limit = inr docs ->
  (length (refs docs) <= 1)%nat ->
  (run w (list_guestbook isoformat limit) hist).1 =
    Returned (map (fun r => text_id isoformat (deref (objects docs) r)) (refs docs)).
Proof.
  intros Hget Hlen. rewrite (run_list_guestbook isoformat _ _ _ _ Hget).
  by rewrite list_sort_short.
Qed.

Lemma list_guestbook_short_list_witness :
  (run (world_with_documents one_null_document) (list_guestbook (fun _ _ => []) 50) []).1 =
    Returned (map (fun r => text_id (fun _ _ => []) (deref (objects one_null_document) r))
                (refs one_null_document)).
Proof.
  apply (list_guestbook_short_list (fun _ _ => [])
           (world_with_documents one_null_document) [] 50%Z one_null_document).
  - reflexivity.
  - cbn. lia.
Defined.

(** X12. What was posted is what is listed: when a document returned by
    [get_documents] has the name and the message [add_guestbook] handed
    to [create_document] for a payload, the response of [list_guestbook]
    has an entry with the trimmed name and the sanitized message of that
    payload. *)
Theorem posted_entry_is_listed
    (isoformat : N -> datetime -> str) (w : world) (hist : list event)
    (limit : Z) (docs : documents) (entries : list dict)
    (payload : GuestbookCreate) (r : nat) :
  get_documents w hist "guestbook" ∅ limit = inr docs ->
  (run w (list_guestbook isoformat limit) hist).1 = Returned entries ->
  r ∈ refs docs ->
  deref (objects docs) r !! "name" = guestbook_data payload !! "name" ->
  deref (objects docs) r !! "message" = guestbook_data payload !! "message" ->
  exists e,
    e ∈ entries /\
    e !! "name" = Some (VStr (strip (name payload))) /\
    e !! "message" =
      Some (VStr (sub URL_REGEX link_removed (strip (message payload)))).
Proof.
  intros Hget Hrun Hr Hname Hmessage.
  rewrite (run_list_guestbook isoformat _ _ _ _ Hget) in Hrun.
  destruct (list_sort _ true (refs docs)) as [e | sorted] eqn:Hsort; [done |].
  injection Hrun as <-. apply list_sort_Permutation in Hsort.
  exists (text_id isoformat (deref (objects docs) r)). split.
  - apply list_elem_of_In,
      (in_map (fun r => text_id isoformat (deref (objects docs) r))), list_elem_of_In.
    by rewrite <- Hsort.
  - destruct (text_id_entry_of isoformat (deref (objects docs) r)) as (_ & Hkeep & _).
    rewrite !Hkeep, Hname, Hmessage by done. done.
Qed.

Lemma posted_entry_is_listed_witness :
  exists e,
    e ∈ map (fun r => text_id (fun _ _ => []) (deref (objects two_documents) r))
          [1; 1; 0]%nat /\
    e !! "name" = Some (VStr (strip (of_ascii " Bob "))) /\
    e !! "message" = Some (VStr (sub URL_REGEX link_removed (strip (of_ascii "hi ")))).
Proof.
  apply (posted_entry_is_listed (fun _ _ => []) (world_with_documents two_documents) []
           50%Z two_documents _ {| name := of_ascii " Bob "; message := of_ascii "hi " |}
           1%nat).
  - reflexivity.
  - vm_compute. reflexivity.
  - cbn. apply list_elem_of_further, list_elem_of_here.
  - vm_compute. reflexivity.
  - vm_compute. reflexivity.
Defined.



(** *** The diagnostic again *)

(** X14. [test_database] reports "Connected & Working" exactly when the
    import gave a handle and the enumeration of its collections
    succeeded. *)
Theorem test_database_working_iff (w : world) (hist : list event) :
  exists response,
    (run w test_database hist).1 = Returned response /\
    (database response = OK_MARK ++ of_ascii " Connected & Working" <->
     exists db names,
       import_db w hist = inr (Some db) /\
       list_collection_names w (hist ++ [EImport_db (inr (Some db))]) db = inr names).
Proof.
  destruct (run_test_database w hist) as (response & trace & Hrun & _ & _ & H).
  exists response. rewrite Hrun. split; [done |].
  destruct (import_db w hist) as [e | [db |]].
  - destruct H as (_ & _ & ->). split.
    + by destruct (exn_ImportError e).
    + by intros (db & names & [=] & _).
  - destruct H as (_ & H).
    destruct (list_collection_names w _ db) as [e | names] eqn:Hlist;
      destruct H as (_ & ->); split; try done.
    + intros (db' & names & [= <-] & Hnames). congruence.
    + intros _. by exists db, names.
  - destruct H as (_ & _ & ->). split; [done |].
    by intros (db & names & [=] & _).
Qed.

(** X15. The [database] status of the response has at most 75 characters:
    the text of an exception is cut at 50. *)
Theorem test_database_status_is_short (w : world) (hist : list event) :
  exists response,
    (run w test_database hist).1 = Returned response /\
    (length (database response) <= 75)%nat.
Proof.
  assert (Hcut : forall e : exn, (length (take 50 (exn_str e)) <= 50)%nat).
  { intros e. rewrite length_take. lia. }
  destruct (run_test_database w hist) as (response & trace & Hrun & _ & _ & H).
  exists response. rewrite Hrun. split; [done |].
  destruct (import_db w hist) as [e | [db |]].
  - destruct H as (_ & _ & ->). specialize (Hcut e).
    remember (take 50 (exn_str e)) as cut. destruct (exn_ImportError e).
    + cbn. lia.
    + rewrite !length_app. cbn. lia.
  - destruct H as (_ & H).
    destruct (list_collection_names w _ db) as [e | names]; destruct H as (_ & ->).
    + specialize (Hcut e). remember (take 50 (exn_str e)) as cut.
      rewrite !length_app. cbn. lia.
    + cbn. lia.
  - destruct H as (_ & _ & ->). cbn. lia.
Qed.

(** X16. The calls of [test_database] are exactly these, in this order:
    the import of the database module; the enumeration of collections when
    the import gave a handle that is not [None], and only then; the reading
    of DATABASE_URL and then of DATABASE_NAME.  None of them is a call to
    the guestbook store. *)
Theorem test_database_reads_only (w : world) (hist : list event) :
  (run w test_database hist).2 =
    hist ++ [EImport_db (import_db w hist)]
         ++ match import_db w hist with
            | inr (Some db) =>
                [EList_collection_names db
                   (list_collection_names w (hist ++ [EImport_db (inr (Some db))]) db)]
            | _ => []
            end
         ++ [EGetenv "DATABASE_URL" (environ w "DATABASE_URL");
             EGetenv "DATABASE_NAME" (environ w "DATABASE_NAME")] /\
  Forall (fun ev => is_storage ev = false)
    (drop (length hist) (run w test_database hist).2).
Proof.
  assert (Htrace : (run w test_database hist).2 =
    hist ++ [EImport_db (import_db w hist)]
         ++ match import_db w hist with
            | inr (Some db) =>
                [EList_collection_names db
                   (list_collection_names w (hist ++ [EImport_db (inr (Some db))]) db)]
            | _ => []
            end
         ++ [EGetenv "DATABASE_URL" (environ w "DATABASE_URL");
             EGetenv "DATABASE_NAME" (environ w "DATABASE_NAME")]).
  { unfold test_database. cbn [run].
    destruct (import_db w hist) as [e | [db |]].
    - destruct (exn_ImportError e); rewrite run_test_database_env; cbn;
        by rewrite <- !app_assoc.
    - cbn [run].
      destruct (list_collection_names w _ db); rewrite run_test_database_env; cbn;
        by rewrite <- !app_assoc.
    - rewrite run_test_database_env. cbn. by rewrite <- !app_assoc. }
  split; [exact Htrace |].
  rewrite Htrace, drop_app_length.
  destruct (import_db w hist) as [e | [db |]]; by repeat constructor.
Qed.

(* ===================================================================== *)
(** ** POST /guestbook: what the client receives *)
(* ===================================================================== *)

Lemma strip_trimming (s : str) : trimming s (strip s).
Proof. apply strip_spec. Qed.

(** C3. For a payload within the length bounds whose name and message are
    not empty once trimmed, if [create_document] returns an identifier then
    [add_guestbook] has called it once, on collection "guestbook", with
    the trimmed name and the trimmed message in which every URL is replaced
    by [[link removed]]; the handler returns an entry with that identifier,
    and the response (status 200) has that name, that message and the
    creation time, but no identifier: [_id] is not a field of
    [GuestbookEntry], and the response model leaves it out. *)
Theorem add_guestbook_response_has_no_id
    (isoformat : N -> datetime -> str) (w : world) (hist : list event)
    (payload : GuestbookCreate) (inserted_id : value) :
  GuestbookCreate_valid payload ->
  strip (name payload) <> [] ->
  strip (message payload) <> [] ->
  create_document w hist "guestbook" (guestbook_data payload) = inr inserted_id ->
  exists n t m entry t1 t2 body,
    trimming (name payload) n /\
    trimming (message payload) t /\ sanitized t m /\
    guestbook_data payload = <["name" := VStr n]> (<["message" := VStr m]> ∅) /\
    run w (add_guestbook isoformat payload) hist =
      (Returned entry,
       hist ++ [ECreate_document "guestbook" (guestbook_data payload) (inr inserted_id)]
            ++ [EDatetime_now t1] ++ [EDatetime_now t2]) /\
    entry !! "_id" = Some inserted_id /\
    add_guestbook_response (run w (add_guestbook isoformat payload) hist).1 =
      Returned body /\
    body = <["name" := VStr n]>
             (<["message" := VStr m]> (<["created_at" := VDatetime t2]> ∅)) /\
    body !! "_id" = None.
Proof.
  intros _ Hn Hm Hc.
  rewrite (add_guestbook_filled _ _ _ _ Hn Hm). cbv zeta. rewrite Hc.
  eexists (strip (name payload)), (strip (message payload)),
    (sub URL_REGEX link_removed (strip (message payload))), _, _, _, _.
  split; [apply strip_trimming |]. split; [apply strip_trimming |].
  split; [apply sub_sanitized |]. split; [done |].
  split; [by rewrite <- !app_assoc |]. split; [done |].
  split; [| split; [reflexivity | done]].
  unfold add_guestbook_response, response_model. cbn [fst]. rewrite <- !app_assoc.
  erewrite model_validate_fields; [reflexivity | by simplify_map_eq ..].
Qed.

Lemma add_guestbook_response_has_no_id_witness :
  let payload := {| name := of_ascii " Ann "; message := of_ascii "see http://y.com " |} in
  exists n t m entry t1 t2 body,
    trimming (name payload) n /\
    trimming (message payload) t /\ sanitized t m /\
    guestbook_data payload = <["name" := VStr n]> (<["message" := VStr m]> ∅) /\
    run sample_world (add_guestbook (fun _ _ => []) payload) [] =
      (Returned entry,
       [] ++ [ECreate_document "guestbook" (guestbook_data payload)
                (inr (VStr (of_ascii "65a1")))]
          ++ [EDatetime_now t1] ++ [EDatetime_now t2]) /\
    entry !! "_id" = Some (VStr (of_ascii "65a1")) /\
    add_guestbook_response (run sample_world (add_guestbook (fun _ _ => []) payload) []).1 =
      Returned body /\
    body = <["name" := VStr n]>
             (<["message" := VStr m]> (<["created_at" := VDatetime t2]> ∅)) /\
    body !! "_id" = None.
Proof.
  apply (add_guestbook_response_has_no_id (fun _ _ => []) sample_world []
           {| name := of_ascii " Ann "; message := of_ascii "see http://y.com " |}
           (VStr (of_ascii "65a1"))).
  - split; vm_compute; lia.
  - vm_compute. discriminate.
  - vm_compute. discriminate.
  - reflexivity.
Defined.

(** On this request the handler returns the identifier and the response
    does not carry it. *)
Example add_guestbook_response_sample :
  let payload := {| name := of_ascii " Ann "; message := of_ascii "see http://y.com " |} in
  let returned := (run sample_world (add_guestbook (fun _ _ => []) payload) []).1 in
  returned =
    Returned (<["_id" := VStr (of_ascii "65a1")]>
              (<["name" := VStr (of_ascii "Ann")]>
               (<["message" := VStr (of_ascii "see [link removed]")]>
                (<["created_at" := VDatetime 2]> ∅)))) /\
  add_guestbook_response returned =
    Returned (<["name" := VStr (of_ascii "Ann")]>
              (<["message" := VStr (of_ascii "see [link removed]")]>
               (<["created_at" := VDatetime 2]> ∅))).
Proof. split; vm_compute; reflexivity. Qed.
